(** * Appointment scheduling and conflict engine

    A shallow embedding of the scheduling core of the appointment routes
    (availability, booking, update, status patch, delete, bulk operations,
    calendar view, diagnostic conflict report) and of the capacity report
    and the schedule of a location, followed by the properties proved
    about them. *)

From stdpp Require Import gmap strings.
From Stdlib Require Import ZArith List String Ascii Bool Lia.
Import ListNotations.
Open Scope string_scope.
Open Scope Z_scope.

(** ** JavaScript values used by the routes *)

(** A [Number] that is an integer, or [None] for NaN. *)
Definition Number := option Z.

(** A [Date] is its time value in milliseconds since the epoch; [None] is
    an Invalid Date.  Relational operators on dates compare time values and
    are false as soon as one side is NaN. *)
Definition Date := option Z.

Definition date_lt (a b : Date) : bool :=
  match a, b with Some x, Some y => x <? y | _, _ => false end.
Definition date_le (a b : Date) : bool :=
  match a, b with Some x, Some y => x <=? y | _, _ => false end.
Definition date_gt (a b : Date) : bool := date_lt b a.
Definition date_ge (a b : Date) : bool := date_le b a.

(** [new Date(d.getTime() + n * k)] *)
Definition addScaled (d : Date) (n : Number) (k : Z) : Date :=
  match d, n with Some t, Some m => Some (t + m * k) | _, _ => None end.

(** [s.split(' ')[0]]: the text before the first space. *)
Fixpoint firstToken (s : string) : string :=
  match s with
  | EmptyString => EmptyString
  | String c rest =>
      if Ascii.eqb c " "%char then EmptyString else String c (firstToken rest)
  end.

Definition isWhite (c : ascii) : bool :=
  let n := N_of_ascii c in
  ((9 <=? n) && (n <=? 13))%N || (n =? 32)%N.

Fixpoint trimStart (s : string) : string :=
  match s with
  | String c rest => if isWhite c then trimStart rest else s
  | EmptyString => s
  end.

(** Value of [c] as a digit of the given radix (10 or 16). *)
Definition digitValue (radix : Z) (c : ascii) : option Z :=
  let n := Z.of_N (N_of_ascii c) in
  let v :=
    if (48 <=? n) && (n <=? 57) then Some (n - 48)
    else if (97 <=? n) && (n <=? 122) then Some (n - 87)
    else if (65 <=? n) && (n <=? 90) then Some (n - 55)
    else None in
  match v with
  | Some d => if d <? radix then Some d else None
  | None => None
  end.

(** Longest prefix of digits, most significant first; [acc] is [None]
    until a digit has been read. *)
Fixpoint parseDigits (radix : Z) (s : string) (acc : Number) : Number :=
  match s with
  | EmptyString => acc
  | String c rest =>
      match digitValue radix c with
      | Some d => parseDigits radix rest (Some (radix * default 0 acc + d))
      | None => acc
      end
  end.

Definition stripHexPrefix (s : string) : option string :=
  match s with
  | String "0" (String "x" rest) => Some rest
  | String "0" (String "X" rest) => Some rest
  | _ => None
  end.

(** [parseInt(s)] with no radix argument: leading white space, an optional
    sign, an optional [0x] prefix, then the longest run of digits; NaN when
    there is none.  The result is exact below 2^53. *)
Definition parseInt (s : string) : Number :=
  let s1 := trimStart s in
  let '(sign, s2) :=
    match s1 with
    | String "-" rest => (-1, rest)
    | String "+" rest => (1, rest)
    | _ => (1, s1)
    end in
  let n :=
    match stripHexPrefix s2 with
    | Some rest => parseDigits 16 rest None
    | None => parseDigits 10 s2 None
    end in
  match n with Some v => Some (sign * v) | None => None end.

(** [parseInt(duration.split(' ')[0])] *)
Definition durationMinutesOf (duration : string) : Number :=
  parseInt (firstToken duration).

(** ** Data model *)

Inductive Status := PENDING | CONFIRMED | CANCELLED | COMPLETED | NO_SHOW.
Inductive AppointmentType := TELEHEALTH | IN_PERSON.

Definition Status_eqb (a b : Status) : bool :=
  match a, b with
  | PENDING, PENDING | CONFIRMED, CONFIRMED | CANCELLED, CANCELLED
  | COMPLETED, COMPLETED | NO_SHOW, NO_SHOW => true
  | _, _ => false
  end.

(** A row of the appointment table.  [date] is a stored, valid timestamp;
    [duration] is the free-form text the routes store, e.g. "30 minutes". *)
Record Appointment := mkAppointment {
  id : string;
  patientId : string;
  providerId : string;
  locationId : string;
  date : Z;
  duration : string;
  type : AppointmentType;
  status : Status;
  notes : option string
}.

Record AuditEntry := mkAudit {
  action : string;
  resource : string;
  resourceId : option string
}.

(** A notification: the room it is sent to ([None] for a broadcast) and the
    event name. *)
Record Emitted := mkEmitted {
  room : option string;
  event : string
}.

(** A row of the location table, with the columns the capacity report
    selects. *)
Record Location := mkLocation {
  loc_id : string;
  loc_name : string;
  capacity : Z
}.

(** The persistent state the handlers read and write.  The appointment
    table is kept in storage order. *)
Record World := mkWorld {
  appointments : list Appointment;
  locations : list Location;
  auditLog : list AuditEntry;
  emitted : list Emitted
}.

Definition createAuditLog (e : AuditEntry) (w : World) : World :=
  mkWorld (appointments w) (locations w) (auditLog w ++ [e]) (emitted w).

Definition emit (e : Emitted) (w : World) : World :=
  mkWorld (appointments w) (locations w) (auditLog w) (emitted w ++ [e]).

Definition setAppointments (l : list Appointment) (w : World) : World :=
  mkWorld l (locations w) (auditLog w) (emitted w).

Definition notCancelled (apt : Appointment) : bool :=
  negb (Status_eqb (status apt) CANCELLED).

Definition findUnique (i : string) (l : list Appointment) : option Appointment :=
  find (fun apt => String.eqb (id apt) i) l.

(** ** Validation schemas *)

Definition validDurations : list string :=
  ["15 minutes"; "30 minutes"; "45 minutes"; "60 minutes"; "90 minutes"].

Definition validDuration (d : string) : bool :=
  existsb (String.eqb d) validDurations.

Definition nonEmpty (s : string) : bool := negb (String.eqb s "").

(** Body of a create request.  The typed fields stand for bodies whose
    [date], [type] and [status] already have the right shape; the string
    checks are the ones the schema still has to make. *)
Record AppointmentBody := mkBody {
  b_patientId : string;
  b_providerId : string;
  b_locationId : string;
  b_date : Z;
  b_duration : string;
  b_type : AppointmentType;
  b_status : option Status;
  b_notes : option string
}.

Definition appointmentSchema (v : AppointmentBody) : bool :=
  nonEmpty (b_patientId v) && nonEmpty (b_providerId v) &&
  nonEmpty (b_locationId v) && validDuration (b_duration v).

(** Body of an update request: every field optional. *)
Record UpdateBody := mkUpdate {
  u_patientId : option string;
  u_providerId : option string;
  u_locationId : option string;
  u_date : option Z;
  u_duration : option string;
  u_type : option AppointmentType;
  u_status : option Status;
  u_notes : option string
}.

Definition optValid {A} (p : A -> bool) (o : option A) : bool :=
  match o with Some x => p x | None => true end.

Definition updateAppointmentSchema (v : UpdateBody) : bool :=
  optValid nonEmpty (u_patientId v) && optValid nonEmpty (u_providerId v) &&
  optValid nonEmpty (u_locationId v) && optValid validDuration (u_duration v).

(** ** Interval overlap *)

Definition MINUTE : Z := 60000.
Definition DAY : Z := 24 * 60 * 60 * 1000.

(** The test the routes spell out at every conflict check, with the
    candidate interval first and the stored appointment second. *)
Definition threeClause (cStart cEnd aptStart aptEnd : Date) : bool :=
  (date_ge cStart aptStart && date_lt cStart aptEnd) ||
  (date_gt cEnd aptStart && date_le cEnd aptEnd) ||
  (date_le cStart aptStart && date_ge cEnd aptEnd).

Definition aptStartOf (apt : Appointment) : Date := Some (date apt).
Definition aptEndOf (apt : Appointment) : Date :=
  addScaled (aptStartOf apt) (durationMinutesOf (duration apt)) MINUTE.

(** The callback given to [some] and [filter]. *)
Definition conflictsWith (cStart cEnd : Date) (apt : Appointment) : bool :=
  threeClause cStart cEnd (aptStartOf apt) (aptEndOf apt).

(** The single predicate on half-open intervals [s1,e1) and [s2,e2). *)
Definition overlap (s1 e1 s2 e2 : Z) : Prop := s1 < e2 /\ s2 < e1.

Definition overlapb (s1 e1 s2 e2 : Z) : bool := (s1 <? e2) && (s2 <? e1).

(** ** Queries on the appointment table *)

Definition inWindow (t : Z) (apt : Appointment) : bool :=
  (t - DAY <=? date apt) && (date apt <=? t + DAY).

(** [findMany] of the create route: same provider, not cancelled, start
    within a day of the requested start. *)
Definition windowedCandidates (p : string) (t : Z) (l : list Appointment)
  : list Appointment :=
  List.filter
    (fun apt => String.eqb (providerId apt) p && notCancelled apt && inWindow t apt) l.

(** The same query with the extra [id: { not: id }] of the update route. *)
Definition windowedCandidatesExcept (i p : string) (t : Z) (l : list Appointment)
  : list Appointment :=
  List.filter
    (fun apt => negb (String.eqb (id apt) i) && String.eqb (providerId apt) p &&
                notCancelled apt && inWindow t apt) l.

(** A scan with no bound on the start, for comparison with the window. *)
Definition unboundedCandidates (p : string) (l : list Appointment)
  : list Appointment :=
  List.filter (fun apt => String.eqb (providerId apt) p && notCancelled apt) l.

(** Modelled from the spec: the storage schema is not among the sources; a
    created appointment with no status gets PENDING. *)
Definition defaultStatus : Status := PENDING.

(** [prisma.appointment.create]: the generated key is [newId]; a key that
    is already taken makes the call throw. *)
Definition create (newId : string) (v : AppointmentBody) (l : list Appointment)
  : option Appointment :=
  match findUnique newId l with
  | Some _ => None
  | None =>
      Some (mkAppointment newId (b_patientId v) (b_providerId v) (b_locationId v)
              (b_date v) (b_duration v) (b_type v)
              (default defaultStatus (b_status v)) (b_notes v))
  end.

Definition applyUpdate (v : UpdateBody) (a : Appointment) : Appointment :=
  mkAppointment (id a)
    (default (patientId a) (u_patientId v))
    (default (providerId a) (u_providerId v))
    (default (locationId a) (u_locationId v))
    (default (date a) (u_date v))
    (default (duration a) (u_duration v))
    (default (type a) (u_type v))
    (default (status a) (u_status v))
    (match u_notes v with Some n => Some n | None => notes a end).

Definition setStatus (s : Status) (a : Appointment) : Appointment :=
  mkAppointment (id a) (patientId a) (providerId a) (locationId a)
    (date a) (duration a) (type a) s (notes a).

(** [update({ where: { id }, data })] on the table. *)
Definition updateWhereId (i : string) (f : Appointment -> Appointment)
  (l : list Appointment) : list Appointment :=
  map (fun apt => if String.eqb (id apt) i then f apt else apt) l.

Definition idIn (ids : list string) (apt : Appointment) : bool :=
  existsb (String.eqb (id apt)) ids.

(** ** POST /api/appointments *)

Inductive PostResult :=
| Post201 (data : Appointment)
| Post400
| Post409 (conflicts : list Appointment)
| Post500.

Definition postAppointment (newId : string) (value : AppointmentBody) (w : World)
  : PostResult * World :=
  if negb (appointmentSchema value) then (Post400, w) else
  let appointmentDate : Date := Some (b_date value) in
  let durationMinutes := durationMinutesOf (b_duration value) in
  let appointmentEnd := addScaled appointmentDate durationMinutes MINUTE in
  let conflicts :=
    windowedCandidates (b_providerId value) (b_date value) (appointments w) in
  let hasConflict := existsb (conflictsWith appointmentDate appointmentEnd) conflicts in
  if hasConflict then
    (Post409 (List.filter (conflictsWith appointmentDate appointmentEnd) conflicts), w)
  else
    match create newId value (appointments w) with
    | None => (Post500, w)
    | Some appointment =>
        let w1 := setAppointments (appointments w ++ [appointment]) w in
        let w2 := createAuditLog (mkAudit "CREATE" "appointment" (Some (id appointment))) w1 in
        let w3 := emit (mkEmitted (Some ("provider-" ++ b_providerId value)%string)
                          "appointment-created") w2 in
        (Post201 appointment, w3)
    end.

(** The create route with its two awaits apart.  The conflict query
    ([findMany], line 365) reads [seen], the table as it is when the query
    runs; [create] (line 402) writes to the state [w] as it is when the
    handler resumes.  When nothing else is served in between, [seen] is
    the table of [w] and this is [postAppointment]. *)
Definition postAppointmentOn (seen : list Appointment) (newId : string)
  (value : AppointmentBody) (w : World) : PostResult * World :=
  if negb (appointmentSchema value) then (Post400, w) else
  let appointmentDate : Date := Some (b_date value) in
  let durationMinutes := durationMinutesOf (b_duration value) in
  let appointmentEnd := addScaled appointmentDate durationMinutes MINUTE in
  let conflicts :=
    windowedCandidates (b_providerId value) (b_date value) seen in
  let hasConflict := existsb (conflictsWith appointmentDate appointmentEnd) conflicts in
  if hasConflict then
    (Post409 (List.filter (conflictsWith appointmentDate appointmentEnd) conflicts), w)
  else
    match create newId value (appointments w) with
    | None => (Post500, w)
    | Some appointment =>
        let w1 := setAppointments (appointments w ++ [appointment]) w in
        let w2 := createAuditLog (mkAudit "CREATE" "appointment" (Some (id appointment))) w1 in
        let w3 := emit (mkEmitted (Some ("provider-" ++ b_providerId value)%string)
                          "appointment-created") w2 in
        (Post201 appointment, w3)
    end.

(** ** PUT /api/appointments/:id *)

Inductive PutResult :=
| Put200 (data : Appointment)
| Put400
| Put404
| Put409.

Definition isSome {A} (o : option A) : bool :=
  match o with Some _ => true | None => false end.

(** The guarded block of the update route: [true] when it answers 409. *)
Definition updateHasConflict (i : string) (value : UpdateBody)
  (existingAppointment : Appointment) (l : list Appointment) : bool :=
  if isSome (u_date value) || isSome (u_duration value) then
    let t := default (date existingAppointment) (u_date value) in
    let appointmentDate : Date := Some t in
    let duration := default (duration existingAppointment) (u_duration value) in
    let durationMinutes := durationMinutesOf duration in
    let appointmentEnd := addScaled appointmentDate durationMinutes MINUTE in
    let conflicts :=
      windowedCandidatesExcept i
        (default (providerId existingAppointment) (u_providerId value)) t l in
    existsb (conflictsWith appointmentDate appointmentEnd) conflicts
  else false.

Definition putAppointment (i : string) (value : UpdateBody) (w : World)
  : PutResult * World :=
  if negb (updateAppointmentSchema value) then (Put400, w) else
  match findUnique i (appointments w) with
  | None => (Put404, w)
  | Some existingAppointment =>
      if updateHasConflict i value existingAppointment (appointments w)
      then (Put409, w)
      else
        let appointment := applyUpdate value existingAppointment in
        let w1 := setAppointments
                    (updateWhereId i (applyUpdate value) (appointments w)) w in
        let w2 := createAuditLog (mkAudit "UPDATE" "appointment" (Some (id appointment))) w1 in
        let w3 := emit (mkEmitted (Some ("provider-" ++ providerId appointment)%string)
                          "appointment-updated") w2 in
        (Put200 appointment, w3)
  end.

(** ** PATCH /api/appointments/:id/status *)

Inductive PatchResult :=
| Patch200 (data : Appointment)
| Patch400
| Patch500.

(** [status] is [None] for a body the schema rejects.  An unknown id makes
    the update throw, which the route answers with 500. *)
Definition patchStatus (i : string) (status : option Status) (w : World)
  : PatchResult * World :=
  match status with
  | None => (Patch400, w)
  | Some s =>
      match findUnique i (appointments w) with
      | None => (Patch500, w)
      | Some existing =>
          let appointment := setStatus s existing in
          let w1 := setAppointments
                      (updateWhereId i (setStatus s) (appointments w)) w in
          let w2 := createAuditLog
                      (mkAudit "STATUS_UPDATE" "appointment" (Some (id appointment))) w1 in
          let w3 := emit (mkEmitted (Some ("provider-" ++ providerId appointment)%string)
                            "appointment-status-updated") w2 in
          (Patch200 appointment, w3)
      end
  end.

(** ** POST /api/appointments/bulk *)

Record BulkBody := mkBulk {
  bk_action : option string;
  bk_appointmentIds : option (list string);
  bk_status : option Status
}.

Inductive BulkResult :=
| Bulk200 (affectedCount : Z)
| Bulk400 (message : string).

Definition deleteMany (ids : list string) (l : list Appointment)
  : Z * list Appointment :=
  (Z.of_nat (List.length (List.filter (idIn ids) l)),
   List.filter (fun apt => negb (idIn ids apt)) l).

Definition updateMany (ids : list string) (s : Status) (l : list Appointment)
  : Z * list Appointment :=
  (Z.of_nat (List.length (List.filter (idIn ids) l)),
   map (fun apt => if idIn ids apt then setStatus s apt else apt) l).

Definition bulkFinish (act : string) (r : Z * list Appointment) (w : World)
  : BulkResult * World :=
  let w1 := setAppointments (snd r) w in
  let w2 := createAuditLog
              (mkAudit (if String.eqb act "delete" then "BULK_DELETE"
                        else "BULK_UPDATE-STATUS") "appointment" None) w1 in
  let w3 := emit (mkEmitted None "appointments-bulk-updated") w2 in
  (Bulk200 (fst r), w3).

Definition postBulk (body : BulkBody) (w : World) : BulkResult * World :=
  match bk_action body, bk_appointmentIds body with
  | Some act, Some appointmentIds =>
      if String.eqb act "" then
        (Bulk400 "Action and appointment IDs array are required", w)
      else if String.eqb act "delete" then
        bulkFinish act (deleteMany appointmentIds (appointments w)) w
      else if String.eqb act "update-status" then
        match bk_status body with
        | None => (Bulk400 "Status is required for bulk status update", w)
        | Some s => bulkFinish act (updateMany appointmentIds s (appointments w)) w
        end
      else (Bulk400 "Invalid bulk action", w)
  | _, _ => (Bulk400 "Action and appointment IDs array are required", w)
  end.

(** ** GET /api/appointments/conflicts *)

(** [orderBy: { date: 'asc' }], as a stable insertion sort. *)
Fixpoint insertByDate (a : Appointment) (l : list Appointment) : list Appointment :=
  match l with
  | [] => [a]
  | b :: rest => if date a <=? date b then a :: l else b :: insertByDate a rest
  end.

Definition orderByDateAsc (l : list Appointment) : list Appointment :=
  fold_right insertByDate [] l.

Record ConflictPair := mkPair {
  appointment1 : Appointment;
  appointment2 : Appointment;
  overlapMinutes : Z
}.

(** [Math.round(ms / (1000 * 60))] of an integer number of milliseconds. *)
Definition roundMinutes (ms : Z) : Z := (ms + 30000) / 60000.

(** The loop over [i] from 0 to [length - 2], comparing row [i] with row
    [i + 1]. *)
Fixpoint adjacentConflicts (l : list Appointment) : list ConflictPair :=
  match l with
  | current :: (next :: _) as rest =>
      let currentEnd := aptEndOf current in
      let nextStart := aptStartOf next in
      (if date_gt currentEnd nextStart
       then [mkPair current next
               (roundMinutes (default 0 currentEnd - date next))]
       else [])
      ++ adjacentConflicts rest
  | _ => []
  end.

Record ConflictsQuery := mkConflictsQuery {
  cq_providerId : option string;
  cq_startDate : option Z;
  cq_endDate : option Z
}.

Definition conflictsWhere (p : string) (q : ConflictsQuery) (apt : Appointment) : bool :=
  String.eqb (providerId apt) p && notCancelled apt &&
  match cq_startDate q, cq_endDate q with
  | Some s, Some e => (s <=? date apt) && (date apt <=? e)
  | _, _ => true
  end.

Inductive ConflictsResult :=
| Conflicts200 (totalAppointments : Z) (conflicts : list ConflictPair) (conflictCount : Z)
| Conflicts400.

Definition getConflicts (q : ConflictsQuery) (w : World) : ConflictsResult :=
  match cq_providerId q with
  | None => Conflicts400
  | Some p =>
      let appointments :=
        orderByDateAsc (List.filter (conflictsWhere p q) (appointments w)) in
      let conflicts := adjacentConflicts appointments in
      Conflicts200 (Z.of_nat (List.length appointments)) conflicts
        (Z.of_nat (List.length conflicts))
  end.

(** ** Slot generation and capacity, in local time *)

(** A range of the provider's day, resolved to the two dates the route
    builds from the requested day and the range's texts. *)
Record TimeRange := mkRange {
  rangeStart : Date;
  rangeEnd : Date
}.

(** An offered slot; [slotStart] and [slotEnd] are the time values of the
    ISO texts the route returns. *)
Record Slot := mkSlot {
  slotStart : Z;
  slotEnd : Z
}.

Definition pushSlot (availableSlots : list Slot) (current slotEnd : Date) : list Slot :=
  match current, slotEnd with
  | Some c, Some e => availableSlots ++ [mkSlot c e]
  | _, _ => availableSlots
  end.

(** The [while (current < end)] loop of one range.  [None] means the fuel
    ran out before the loop condition failed. *)
Fixpoint slotLoop (fuel : nat) (existingAppointments : list Appointment)
  (durationMinutes : Number) (end_ current : Date) (availableSlots : list Slot)
  : option (list Slot) :=
  match fuel with
  | O => None
  | S fuel' =>
      if date_lt current end_ then
        let slotEnd := addScaled current durationMinutes MINUTE in
        let availableSlots' :=
          if date_le slotEnd end_ then
            let hasConflict :=
              existsb (conflictsWith current slotEnd) existingAppointments in
            if negb hasConflict then pushSlot availableSlots current slotEnd
            else availableSlots
          else availableSlots in
        slotLoop fuel' existingAppointments durationMinutes end_
          (addScaled current (Some 15) MINUTE) availableSlots'
      else Some availableSlots
  end.

(** Enough iterations for a range: one per quarter of an hour, and the
    last test of the condition. *)
Definition loopFuel (r : TimeRange) : nat :=
  match rangeStart r, rangeEnd r with
  | Some s, Some e => Z.to_nat ((e - s) / (15 * MINUTE)) + 2
  | _, _ => 1
  end.

(** [dayAvailability.forEach(...)], pushing onto one shared array. *)
Fixpoint forEachRange (existingAppointments : list Appointment)
  (durationMinutes : Number) (dayAvailability : list TimeRange)
  (availableSlots : list Slot) : option (list Slot) :=
  match dayAvailability with
  | [] => Some availableSlots
  | timeRange :: rest =>
      match slotLoop (loopFuel timeRange) existingAppointments durationMinutes
              (rangeEnd timeRange) (rangeStart timeRange) availableSlots with
      | Some slots => forEachRange existingAppointments durationMinutes rest slots
      | None => None
      end
  end.

(** The slot computation of the availability handler (lines 288 to 332),
    which follows its weekday lookup. *)
Definition generateSlots (existingAppointments : list Appointment)
  (duration : string) (dayAvailability : list TimeRange) : option (list Slot) :=
  forEachRange existingAppointments (durationMinutesOf duration) dayAvailability [].

Record AvailabilityQuery := mkAvailabilityQuery {
  q_providerId : option string;
  q_locationId : option string;
  q_date : option Z;
  q_duration : option string
}.

(** The answers of the availability route; [Avail500] is the one its
    [catch] gives when a call in the handler throws. *)
Inductive AvailabilityResult :=
| Avail200 (availableSlots : list Slot) (existingAppointments : Z) (totalSlots : Z)
| Avail400
| Avail404
| Avail500.

(** The values [Intl.DateTimeFormat] takes for its [weekday] option; with
    any other value the call throws a RangeError. *)
Definition weekdayValues : list string := ["narrow"; "short"; "long"].

(** The en-US weekday names, Sunday first, in the three styles. *)
Definition weekdayNames (weekday : string) : list string :=
  if String.eqb weekday "long" then
    ["Sunday"; "Monday"; "Tuesday"; "Wednesday"; "Thursday"; "Friday"; "Saturday"]
  else if String.eqb weekday "short" then
    ["Sun"; "Mon"; "Tue"; "Wed"; "Thu"; "Fri"; "Sat"]
  else ["S"; "M"; "T"; "W"; "T"; "F"; "S"].

Record HourBucket := mkBucket {
  hour : Z;
  currentAppointments : Z;
  availableSlots : Z;
  isAvailable : bool
}.

Inductive LocationAvailabilityResult :=
| LocAvail200 (totalAppointments : Z) (availabilityByHour : list HourBucket)
    (isFullyBooked : bool)
| LocAvail400
| LocAvail404.

(** [hourlyCount[h] = (hourlyCount[h] || 0) + 1] *)
Definition bump (h : Z) (hourlyCount : gmap Z Z) : gmap Z Z :=
  <[h := default 0 (hourlyCount !! h) + 1]> hourlyCount.

(** [for (let h = hour; ...; h++)] with [n] iterations left. *)
Fixpoint forHours (n : nat) (h : Z) (hourlyCount : gmap Z Z) : gmap Z Z :=
  match n with
  | O => hourlyCount
  | S n' => forHours n' (h + 1) (bump h hourlyCount)
  end.

(** [Math.ceil(n / 60)] of an integer. *)
Definition ceilDiv60 (n : Z) : Z := (n + 59) / 60.

Section LocalTime.

(** Offset of local time from UTC in milliseconds, taken as constant. *)
Variable tz : Z.

Definition getHours (t : Z) : Z := ((t + tz) / 3600000) mod 24.
Definition getMinutes (t : Z) : Z := ((t + tz) / 60000) mod 60.

(** [setHours(0, 0, 0, 0)] and [setHours(23, 59, 59, 999)] *)
Definition startOfDay (t : Z) : Z := t - (t + tz) mod 86400000.
Definition endOfDay (t : Z) : Z := startOfDay t + 86399999.

Definition onDay (selectedDate : Z) (apt : Appointment) : bool :=
  (startOfDay selectedDate <=? date apt) && (date apt <=? endOfDay selectedDate).

(** The [where] clause of the availability route. *)
Definition availabilityWhere (p : string) (loc : option string)
  (selectedDate : Z) (apt : Appointment) : bool :=
  String.eqb (providerId apt) p &&
  match loc with Some l => String.eqb (locationId apt) l | None => true end &&
  onDay selectedDate apt && notCancelled apt.

(** [toLocaleDateString('en-US', { weekday })]: the name of the local
    weekday of [t], or [None] when the call throws.  Day 0 of the epoch is
    a Thursday. *)
Definition toLocaleDateString (weekday : string) (t : Z) : option string :=
  if existsb (String.eqb weekday) weekdayValues then
    Some (nth (Z.to_nat (((t + tz) / 86400000 + 4) mod 7)) (weekdayNames weekday) "")
  else None.

(** GET /api/appointments/availability.  [provider] is the outcome of the
    provider lookup: [None] when there is no such provider, otherwise its
    [availability] object, giving for a key the ranges stored under it,
    resolved to dates on the requested day ([[]] for a key it does not
    have).  The handler asks for the weekday in the style ['lowercase'];
    a throw inside the [try] is answered by the [catch] with 500.  The
    outer [None] is a loop that ran out of fuel. *)
Definition getAvailability (q : AvailabilityQuery)
  (provider : option (string -> list TimeRange)) (w : World)
  : option AvailabilityResult :=
  match q_providerId q, q_date q with
  | Some p, Some selectedDate =>
      let duration := default "30 minutes" (q_duration q) in
      let existingAppointments :=
        orderByDateAsc
          (List.filter (availabilityWhere p (q_locationId q) selectedDate)
             (appointments w)) in
      match provider with
      | None => Some Avail404
      | Some availability =>
          match toLocaleDateString "lowercase" (endOfDay selectedDate) with
          | None => Some Avail500
          | Some dayOfWeek =>
              let dayAvailability := availability dayOfWeek in
              match generateSlots existingAppointments duration dayAvailability with
              | Some availableSlots =>
                  Some (Avail200 availableSlots
                          (Z.of_nat (List.length existingAppointments))
                          (Z.of_nat (List.length availableSlots)))
              | None => None
              end
          end
      end
  | _, _ => Some Avail400
  end.

(** The hours one appointment adds to. *)
Definition countAppointment (hourlyCount : gmap Z Z) (apt : Appointment)
  : gmap Z Z :=
  let hour := getHours (date apt) in
  match durationMinutesOf (duration apt) with
  | Some durationMinutes =>
      let endHour := ceilDiv60 (getMinutes (date apt) + durationMinutes) + hour in
      forHours (Z.to_nat (endHour - hour)) hour hourlyCount
  | None => hourlyCount
  end.

Definition hourlyCountOf (appointments : list Appointment) : gmap Z Z :=
  fold_left countAppointment appointments ∅.

Definition bucketOf (capacity : Z) (hourlyCount : gmap Z Z) (hour : Z) : HourBucket :=
  let currentCount := default 0 (hourlyCount !! hour) in
  mkBucket hour currentCount (Z.max 0 (capacity - currentCount))
    (currentCount <? capacity).

Definition locationWhere (i : string) (selectedDate : Z) (apt : Appointment) : bool :=
  String.eqb (locationId apt) i && onDay selectedDate apt && notCancelled apt.

(** GET /api/locations/:id/availability, without the peak hour and the
    percentage, which are not integers in general. *)
Definition getLocationAvailability (i : string) (date : option Z) (w : World)
  : LocationAvailabilityResult :=
  match date with
  | None => LocAvail400
  | Some selectedDate =>
      match find (fun l => String.eqb (loc_id l) i) (locations w) with
      | None => LocAvail404
      | Some location =>
          let appointments :=
            orderByDateAsc
              (List.filter (locationWhere i selectedDate) (appointments w)) in
          let hourlyCount := hourlyCountOf appointments in
          LocAvail200 (Z.of_nat (List.length appointments))
            (map (bucketOf (capacity location) hourlyCount) (seqZ 8 11))
            (capacity location * 10 <=? Z.of_nat (List.length appointments))
      end
  end.

End LocalTime.

(** ** What the claims speak about, in their own words *)

(** Minutes of a stored or requested duration text; 0 when it has none. *)
Definition minutesOf (d : string) : Z :=
  default 0 (durationMinutesOf d).

(** The half-open interval of an appointment overlaps the requested
    interval that starts at [t] and lasts [duration]. *)
Definition overlapsRequest (t : Z) (d : string) (apt : Appointment) : Prop :=
  overlap t (t + minutesOf d * MINUTE)
    (date apt) (date apt + minutesOf (duration apt) * MINUTE).

Definition overlapsRequestb (t : Z) (d : string) (apt : Appointment) : bool :=
  overlapb t (t + minutesOf d * MINUTE)
    (date apt) (date apt + minutesOf (duration apt) * MINUTE).

(** Every stored duration is one the schemas accept. *)
Definition storedDurationsValid (l : list Appointment) : Prop :=
  forall a, In a l -> validDuration (duration a) = true.

(** The provider's appointments that are not cancelled and overlap the
    requested interval, over the whole table. *)
Definition overlappingAppointments (p : string) (t : Z) (d : string)
  (l : list Appointment) : list Appointment :=
  List.filter
    (fun a => String.eqb (providerId a) p && notCancelled a && overlapsRequestb t d a) l.

(** The route's conflict callback, for a request starting at [t] with
    duration text [d]. *)
Definition requestConflict (t : Z) (d : string) : Appointment -> bool :=
  conflictsWith (Some t) (addScaled (Some t) (durationMinutesOf d) MINUTE).

(** ** Sample data *)

(** Midnight of Monday 15 January 2024, UTC. *)
Definition monday : Z := 1705276800000.

Definition clock (h m : Z) : Z := monday + h * 3600000 + m * MINUTE.

Definition sampleApt (i p loc : string) (t : Z) (d : string) (s : Status)
  : Appointment :=
  mkAppointment i "patient-1" p loc t d IN_PERSON s None.

Definition worldOf (l : list Appointment) : World :=
  mkWorld l [mkLocation "loc-1" "Main" 2] [] [].

(** One confirmed appointment of provider X, 10:00 to 10:30. *)
Definition tenOClock : Appointment :=
  sampleApt "apt-10" "prov-X" "loc-1" (clock 10 0) "30 minutes" CONFIRMED.

(** A request for 10:15 to 10:45 with provider X. *)
Definition quarterPastTen : AppointmentBody :=
  mkBody "patient-2" "prov-X" "loc-1" (clock 10 15) "30 minutes" IN_PERSON None None.

(** The range 09:00 to 12:00 of the day that starts at [d0]. *)
Definition nineToTwelve (d0 : Z) : TimeRange :=
  mkRange (Some (d0 + 9 * 3600000)) (Some (d0 + 12 * 3600000)).

(** End of an appointment's interval, and overlap of two appointments. *)
Definition endOf (a : Appointment) : Z := date a + minutesOf (duration a) * MINUTE.

Definition appointmentsOverlap (a b : Appointment) : Prop :=
  overlap (date a) (endOf a) (date b) (endOf b).

(** Three appointments of provider X: a long one from 10:00 to 11:30, a
    short one inside it from 10:15 to 10:30, and one from 10:45 to 11:15. *)
Definition longTen : Appointment :=
  sampleApt "apt-A" "prov-X" "loc-1" (clock 10 0) "90 minutes" CONFIRMED.
Definition shortQuarterPast : Appointment :=
  sampleApt "apt-B" "prov-X" "loc-1" (clock 10 15) "15 minutes" CONFIRMED.
Definition quarterToEleven : Appointment :=
  sampleApt "apt-C" "prov-X" "loc-1" (clock 10 45) "30 minutes" CONFIRMED.

(** A cancelled appointment. *)
Definition cancelledNine : Appointment :=
  sampleApt "apt-9" "prov-X" "loc-1" (clock 9 0) "30 minutes" CANCELLED.

(** The ids of a request that exist in the table, each counted once. *)
Definition existsInStore (l : list Appointment) (i : string) : bool :=
  isSome (findUnique i l).

Definition existingIds (ids : list string) (l : list Appointment) : list string :=
  List.filter (existsInStore l) (nodup string_dec ids).

(** Three stored appointments and a bulk delete naming five ids. *)
Definition threeStored : list Appointment :=
  [sampleApt "a1" "prov-X" "loc-1" (clock 9 0) "30 minutes" PENDING;
   sampleApt "a2" "prov-X" "loc-1" (clock 10 0) "30 minutes" CONFIRMED;
   sampleApt "a3" "prov-Y" "loc-1" (clock 11 0) "60 minutes" COMPLETED].

Definition deleteFive : BulkBody :=
  mkBulk (Some "delete") (Some ["a1"; "gone-1"; "a2"; "gone-2"; "a3"]) None.

(** An update of the 10:00 appointment that sends its own date and
    duration again. *)
Definition resendOwnTime : UpdateBody :=
  mkUpdate None None None (Some (clock 10 0)) (Some "30 minutes") None None None.

(** Hour [h] of the local day of [selectedDate], as an interval of time
    values, and the appointments of the report that intersect it. *)
Definition hourStart (tz selectedDate h : Z) : Z :=
  startOfDay tz selectedDate + h * 3600000.

Definition intersectsHour (tz selectedDate h : Z) (a : Appointment) : Prop :=
  overlap (date a) (endOf a) (hourStart tz selectedDate h) (hourStart tz selectedDate (h + 1)).

Definition intersectsHourb (tz selectedDate h : Z) (a : Appointment) : bool :=
  overlapb (date a) (endOf a) (hourStart tz selectedDate h) (hourStart tz selectedDate (h + 1)).

(** Number of appointments at location [i] on the day, not cancelled, whose
    interval intersects hour [h]. *)
Definition occupiedAt (tz : Z) (i : string) (selectedDate h : Z)
  (l : list Appointment) : Z :=
  Z.of_nat (List.length
    (List.filter (fun a => locationWhere tz i selectedDate a &&
                           intersectsHourb tz selectedDate h a) l)).

(** The appointment starts on a whole minute of local time. *)
Definition onWholeMinute (tz : Z) (a : Appointment) : Prop :=
  (date a + tz) mod 60000 = 0.

(** The hours the loop of one appointment adds to, as a test on [h]. *)
Definition coversb (tz h : Z) (a : Appointment) : bool :=
  match durationMinutesOf (duration a) with
  | Some dm =>
      (getHours tz (date a) <=? h) &&
      (h <? ceilDiv60 (getMinutes tz (date a) + dm) + getHours tz (date a))
  | None => false
  end.

(** Three appointments in the 14:00 hour at location 1, whose capacity is 2. *)
Definition crowdedTwoPm : list Appointment :=
  [sampleApt "c1" "prov-X" "loc-1" (clock 14 0) "30 minutes" CONFIRMED;
   sampleApt "c2" "prov-Y" "loc-1" (clock 14 15) "30 minutes" PENDING;
   sampleApt "c3" "prov-Z" "loc-1" (clock 14 30) "15 minutes" CONFIRMED].

(** An appointment of one hour that starts thirty seconds after 14:00. *)
Definition halfMinutePastTwo : Appointment :=
  sampleApt "s1" "prov-X" "loc-1" (clock 14 0 + 30000) "60 minutes" CONFIRMED.

(** The bucket of hour [h] as the report should show it: the occupied
    count, what is left of the capacity, and whether anything is left. *)
Definition expectedBucket (tz : Z) (i : string) (selectedDate cap : Z)
  (l : list Appointment) (h : Z) : HourBucket :=
  let occupied := occupiedAt tz i selectedDate h l in
  mkBucket h occupied (Z.max 0 (cap - occupied)) (occupied <? cap).

(** The two facts every table written through the routes keeps: the key
    is unique and the stored durations passed validation. *)
Definition tableOk (l : list Appointment) : Prop :=
  List.NoDup (map id l) /\ storedDurationsValid l.

Definition farAway : Appointment :=
  sampleApt "apt-far" "prov-X" "loc-1" (clock 96 0) "90 minutes" PENDING.

Definition crowdedWorld : World :=
  mkWorld crowdedTwoPm [mkLocation "loc-1" "Main" 2] [] [].

(** ** GET /api/locations/:id/schedule *)

Definition DAYMS : Z := 86400000.

(** One day of the schedule.  [isoDay] is the UTC day number of the loop
    date, which the route prints as a date text; the percentage, not an
    integer in general, is left out. *)
Record DaySchedule := mkDay {
  isoDay : Z;
  dayAppointments : list Appointment;
  appointmentCount : Z;
  totalDurationMinutes : Number;
  isOverCapacity : bool
}.

(** [total + parseInt(apt.duration.split(' ')[0])], NaN once it is NaN. *)
Definition addDuration (total : Number) (apt : Appointment) : Number :=
  match total, durationMinutesOf (duration apt) with
  | Some x, Some y => Some (x + y)
  | _, _ => None
  end.

(** What the schedule loop asks of local time.  [calendarDay t] numbers
    the local calendar day of the time value [t]: two dates have the same
    [toDateString()] exactly when it is the same.  [nextDay d] is the time
    value of [d] after [d.setDate(d.getDate() + 1)]: the same time of day
    on the next calendar day, 24 hours later, or 23 or 25 where the clocks
    change in between.  The laws are those of a zone whose clock changes
    are of one hour at most. *)
Record Calendar := mkCalendar {
  calendarDay : Z -> Z;
  nextDay : Z -> Z;
  nextDay_later : forall d, d + 82800000 <= nextDay d;
  nextDay_sooner : forall d, nextDay d <= d + 90000000;
  nextDay_calendarDay : forall d, calendarDay (nextDay d) = calendarDay d + 1;
  calendarDay_mono : forall s t, s <= t -> calendarDay s <= calendarDay t
}.

(** The calendar day at a constant offset [tz] from UTC. *)
Definition localDay (tz t : Z) : Z := (t + tz) / DAYMS.

(** Local time at a constant offset from UTC: every day has 24 hours. *)
Definition fixedOffset (tz : Z) : Calendar :=
  mkCalendar (localDay tz) (fun d => d + DAYMS)
    ltac:(intros d; unfold DAYMS; lia)
    ltac:(intros d; unfold DAYMS; lia)
    ltac:(intros d; unfold localDay;
          replace (d + DAYMS + tz) with (d + tz + 1 * DAYMS) by lia;
          apply Z.div_add; unfold DAYMS; lia)
    ltac:(intros s t H; unfold localDay; apply Z.div_le_mono; unfold DAYMS; lia).

Definition dayEntry (c : Calendar) (capacity : Z) (appointments : list Appointment)
  (d : Z) : DaySchedule :=
  let dayAppointments :=
    List.filter (fun apt => calendarDay c (date apt) =? calendarDay c d) appointments in
  mkDay (d / DAYMS) dayAppointments (Z.of_nat (List.length dayAppointments))
    (fold_left addDuration dayAppointments (Some 0))
    (capacity <? Z.of_nat (List.length dayAppointments)).

(** [for (let d = new Date(start); d <= end; d.setDate(d.getDate() + 1))];
    [None] when the fuel runs out first. *)
Fixpoint scheduleLoop (fuel : nat) (c : Calendar) (capacity : Z)
  (appointments : list Appointment) (end_ d : Z) (schedule : list DaySchedule)
  : option (list DaySchedule) :=
  match fuel with
  | O => None
  | S fuel' =>
      if d <=? end_ then
        scheduleLoop fuel' c capacity appointments end_ (nextDay c d)
          (schedule ++ [dayEntry c capacity appointments d])
      else Some schedule
  end.

Definition scheduleWhere (i : string) (start end_ : Z) (apt : Appointment) : bool :=
  String.eqb (locationId apt) i &&
  ((start <=? date apt) && (date apt <=? end_)) && notCancelled apt.

Inductive LocationScheduleResult :=
| LocSchedule200 (location : Location) (schedule : list DaySchedule)
| LocSchedule400
| LocSchedule404.

(** The outer [None] is a loop that ran out of fuel; a step of the loop
    is 23 hours at least. *)
Definition getLocationSchedule (c : Calendar) (i : string) (startDate endDate : option Z)
  (w : World) : option LocationScheduleResult :=
  match startDate, endDate with
  | Some start, Some end_ =>
      match find (fun l => String.eqb (loc_id l) i) (locations w) with
      | None => Some LocSchedule404
      | Some location =>
          let appointments :=
            orderByDateAsc (List.filter (scheduleWhere i start end_) (appointments w)) in
          match scheduleLoop (Z.to_nat ((end_ - start) / 82800000) + 2) c
                  (capacity location) appointments end_ start [] with
          | Some schedule => Some (LocSchedule200 location schedule)
          | None => None
          end
      end
  | _, _ => Some LocSchedule400
  end.

(** ** GET /api/appointments/calendar *)

Record CalendarQuery := mkCalendarQuery {
  cal_startDate : option Z;
  cal_endDate : option Z;
  cal_providerId : option string;
  cal_locationId : option string
}.

Definition calendarWhere (q : CalendarQuery) (apt : Appointment) : bool :=
  match cal_startDate q, cal_endDate q with
  | Some s, Some e => (s <=? date apt) && (date apt <=? e)
  | _, _ => true
  end &&
  match cal_providerId q with Some p => String.eqb (providerId apt) p | None => true end &&
  match cal_locationId q with Some l => String.eqb (locationId apt) l | None => true end.

(** [date.toISOString().split('T')[0]]: the date text names the UTC day,
    kept here as the day number. *)
Definition dateKey (t : Z) : Z := t / DAYMS.

(** The callback of [reduce]: push onto the array under the date key,
    after creating it when it is missing. *)
Definition groupByDate (acc : gmap Z (list Appointment)) (appointment : Appointment)
  : gmap Z (list Appointment) :=
  let key := dateKey (date appointment) in
  <[key := (default [] (acc !! key) ++ [appointment])%list]> acc.

Definition getCalendar (q : CalendarQuery) (w : World) : gmap Z (list Appointment) :=
  fold_left groupByDate
    (orderByDateAsc (List.filter (calendarWhere q) (appointments w))) ∅.

(** ** DELETE /api/appointments/:id *)

Inductive DeleteResult :=
| Delete200
| Delete404.

(** [delete({ where: { id } })] on the table. *)
Definition deleteWhereId (i : string) (l : list Appointment) : list Appointment :=
  List.filter (fun apt => negb (String.eqb (id apt) i)) l.

Definition deleteAppointment (i : string) (w : World) : DeleteResult * World :=
  match findUnique i (appointments w) with
  | None => (Delete404, w)
  | Some appointment =>
      let w1 := setAppointments (deleteWhereId i (appointments w)) w in
      let w2 := createAuditLog (mkAudit "DELETE" "appointment" (Some i)) w1 in
      let w3 := emit (mkEmitted (Some ("provider-" ++ providerId appointment)%string)
                        "appointment-deleted") w2 in
      (Delete200, w3)
  end.

(** ** The writing routes as one request handler *)

(** A request to one of the routes that write the appointment table.  The
    id of a create request is the key the store generates for it. *)
Inductive Request :=
| ReqPost (newId : string) (value : AppointmentBody)
| ReqPut (i : string) (value : UpdateBody)
| ReqPatch (i : string) (status : option Status)
| ReqBulk (body : BulkBody)
| ReqDelete (i : string).

(** The state after a request. *)
Definition handle (w : World) (r : Request) : World :=
  match r with
  | ReqPost newId value => snd (postAppointment newId value w)
  | ReqPut i value => snd (putAppointment i value w)
  | ReqPatch i s => snd (patchStatus i s w)
  | ReqBulk body => snd (postBulk body w)
  | ReqDelete i => snd (deleteAppointment i w)
  end.

(** The state after a sequence of requests, served one after the other. *)
Definition serve (rs : list Request) (w : World) : World :=
  fold_left handle rs w.

(** No two different appointments of one provider that are both not
    cancelled overlap. *)
Definition pairwiseFree (l : list Appointment) : Prop :=
  forall a b, In a l -> In b l -> id a <> id b ->
    providerId a = providerId b ->
    status a <> CANCELLED -> status b <> CANCELLED ->
    ~ appointmentsOverlap a b.

(** The row a create request with key [newId] writes. *)
Definition createdFrom (newId : string) (value : AppointmentBody) : Appointment :=
  mkAppointment newId (b_patientId value) (b_providerId value) (b_locationId value)
    (b_date value) (b_duration value) (b_type value)
    (default defaultStatus (b_status value)) (b_notes value).

(** A request for 11:00 to 11:30 with provider X. *)
Definition elevenOClock : AppointmentBody :=
  mkBody "patient-3" "prov-X" "loc-1" (clock 11 0) "30 minutes" IN_PERSON
    (Some CONFIRMED) None.

(** A short session against an empty table. *)
Definition sampleSession : list Request :=
  [ReqPost "a1" quarterPastTen; ReqPost "a2" quarterPastTen;
   ReqPut "a1" resendOwnTime; ReqPatch "a1" (Some CANCELLED);
   ReqPost "a3" elevenOClock; ReqBulk deleteFive; ReqDelete "a1"].

(** Each row starts no later than the next one. *)
Fixpoint sortedByDate (l : list Appointment) : Prop :=
  match l with
  | a :: (b :: _) as rest => date a <= date b /\ sortedByDate rest
  | _ => True
  end.

(** The rows the conflicts report reads for provider [p]. *)
Definition reportRows (p : string) (q : ConflictsQuery) (l : list Appointment)
  : list Appointment :=
  List.filter (conflictsWhere p q) l.

(** All of provider X's appointments are asked for. *)
Definition askAllOfX : ConflictsQuery := mkConflictsQuery (Some "prov-X") None None.

Definition nestedThree : World :=
  worldOf [longTen; shortQuarterPast; quarterToEleven].

Definition tenThenEleven : World :=
  worldOf [tenOClock; createdFrom "apt-11" elevenOClock].

(** A bulk status update of two of the three stored appointments. *)
Definition cancelTwo : BulkBody :=
  mkBulk (Some "update-status") (Some ["a1"; "gone-1"; "a3"]) (Some CANCELLED).

(** Whether the text [j] is one of [ids]. *)
Definition named (ids : list string) (j : string) : bool :=
  existsb (String.eqb j) ids.

(** The text has no space in it. *)
Fixpoint noSpace (s : string) : bool :=
  match s with
  | EmptyString => true
  | String c rest => negb (Ascii.eqb c " "%char) && noSpace rest
  end.

(** The loop date after [k] passes that began at [d]. *)
Fixpoint afterDays (c : Calendar) (k : nat) (d : Z) : Z :=
  match k with
  | O => d
  | S k' => afterDays c k' (nextDay c d)
  end.

(** The loop date that falls on the calendar day of [e], for a loop that
    began at [start]. *)
Definition onDayOf (c : Calendar) (start e : Z) : Z :=
  afterDays c (Z.to_nat (calendarDay c e - calendarDay c start)) start.

(** The appointments listed over all days of a schedule. *)
Definition listedCount (schedule : list DaySchedule) : Z :=
  fold_right (fun e s => appointmentCount e + s) 0 schedule.

(** The slots an answer of the availability route carries. *)
Definition slotsOf (r : option AvailabilityResult) : list Slot :=
  match r with
  | Some (Avail200 availableSlots _ _) => availableSlots
  | _ => []
  end.


(** Scenario A: the provider's availability object holds the one range
    09:00 to 12:00 under the key of Monday, and the availability of that
    Monday is asked for with 30 minutes. *)
Definition mondayNineToTwelve (tz : Z) (key : string) : list TimeRange :=
  if String.eqb key "monday" then [nineToTwelve (startOfDay tz monday)] else [].

Definition askMondayThirty : AvailabilityQuery :=
  mkAvailabilityQuery (Some "prov-X") None (Some monday) (Some "30 minutes").

(** Provider Y has a confirmed appointment 10:00 to 10:30 of its own. *)
Definition tenOfY : Appointment :=
  sampleApt "apt-y" "prov-Y" "loc-1" (clock 10 0) "30 minutes" CONFIRMED.

Definition twoProviders : World := worldOf [tenOClock; tenOfY].

(** An update that hands the appointment to provider Y, sets its status
    and leaves a note; it names neither date nor duration. *)
Definition handToY : UpdateBody :=
  mkUpdate None (Some "prov-Y") None None None None (Some COMPLETED)
    (Some "seen by Y").

(** An update that moves the appointment to 14:00. *)
Definition moveToTwoPm : UpdateBody :=
  mkUpdate None None None (Some (clock 14 0)) None None None None.

(** * Properties *)

(** ** Durations and dates *)

Lemma validDuration_cases (d : string) :
  validDuration d = true ->
  d = "15 minutes" \/ d = "30 minutes" \/ d = "45 minutes" \/
  d = "60 minutes" \/ d = "90 minutes".
Proof.
  unfold validDuration, validDurations. cbn [existsb].
  rewrite !orb_true_iff, !String.eqb_eq. intuition discriminate.
Qed.

Lemma validDuration_minutes (d : string) :
  validDuration d = true ->
  exists m, durationMinutesOf d = Some m /\ 15 <= m <= 90.
Proof.
  intros H. apply validDuration_cases in H.
  destruct H as [-> | [-> | [-> | [-> | ->]]]];
    [exists 15 | exists 30 | exists 45 | exists 60 | exists 90];
    (split; [reflexivity | lia]).
Qed.

Lemma overlapb_spec (s1 e1 s2 e2 : Z) :
  overlapb s1 e1 s2 e2 = true <-> overlap s1 e1 s2 e2.
Proof.
  unfold overlapb, overlap. rewrite andb_true_iff, !Z.ltb_lt. tauto.
Qed.

Lemma threeClause_valid (c ce a ae : Z) :
  threeClause (Some c) (Some ce) (Some a) (Some ae) =
  ((a <=? c) && (c <? ae)) || ((a <? ce) && (ce <=? ae)) || ((c <=? a) && (ae <=? ce)).
Proof. reflexivity. Qed.

Lemma threeClause_overlapb (c ce a ae : Z) :
  c < ce -> a < ae ->
  threeClause (Some c) (Some ce) (Some a) (Some ae) = overlapb c ce a ae.
Proof.
  intros Hc Ha. rewrite threeClause_valid. unfold overlapb.
  destruct (a <=? c) eqn:E1, (c <? ae) eqn:E2, (a <? ce) eqn:E3,
    (ce <=? ae) eqn:E4, (c <=? a) eqn:E5, (ae <=? ce) eqn:E6; cbn; try reflexivity;
    rewrite ?Z.leb_le, ?Z.leb_gt, ?Z.ltb_lt, ?Z.ltb_ge in *; lia.
Qed.

(** On validated durations the route's callback is the overlap predicate. *)
Lemma conflictsWith_overlapsRequestb (t : Z) (d : string) (a : Appointment) :
  validDuration d = true ->
  validDuration (duration a) = true ->
  conflictsWith (Some t) (addScaled (Some t) (durationMinutesOf d) MINUTE) a =
  overlapsRequestb t d a.
Proof.
  intros Hd Ha.
  destruct (validDuration_minutes _ Hd) as (m & Hm & Hmb).
  destruct (validDuration_minutes _ Ha) as (n & Hn & Hnb).
  unfold conflictsWith, overlapsRequestb, aptEndOf, aptStartOf, minutesOf.
  rewrite Hm, Hn. cbn [addScaled default from_option Datatypes.id].
  apply threeClause_overlapb; unfold MINUTE; lia.
Qed.

(** ** C1: the three clauses and the single predicate *)

(** C1.  For two non-empty half-open intervals [s1,e1) (the candidate) and
    [s2,e2) (the stored appointment), the three-clause test of the routes
    holds exactly when [s1 < e2] and [s2 < e1]. *)
Theorem threeClause_iff_overlap (s1 e1 s2 e2 : Z) :
  s1 < e1 -> s2 < e2 ->
  threeClause (Some s1) (Some e1) (Some s2) (Some e2) = true <->
  overlap s1 e1 s2 e2.
Proof.
  intros H1 H2. rewrite threeClause_overlapb by assumption.
  apply overlapb_spec.
Qed.

Lemma threeClause_iff_overlap_witness :
  0 < 30 /\ 15 < 45 /\
  (threeClause (Some 0) (Some 30) (Some 15) (Some 45) = true <-> overlap 0 30 15 45).
Proof.
  split; [lia | split; [lia |]].
  apply (threeClause_iff_overlap 0 30 15 45); lia.
Defined.

(** ** C5: the bounded window loses no conflict *)

Lemma notCancelled_spec (a : Appointment) :
  notCancelled a = true <-> status a <> CANCELLED.
Proof. unfold notCancelled. destruct (status a); cbn; split; congruence. Qed.

Lemma overlapsRequest_inWindow (t : Z) (d : string) (a : Appointment) :
  validDuration d = true ->
  validDuration (duration a) = true ->
  overlapsRequest t d a ->
  t - DAY <= date a <= t + DAY.
Proof.
  intros Hd Ha.
  destruct (validDuration_minutes _ Hd) as (m & Hm & Hmb).
  destruct (validDuration_minutes _ Ha) as (n & Hn & Hnb).
  unfold overlapsRequest, overlap, minutesOf. rewrite Hm, Hn.
  cbn [default from_option Datatypes.id]. unfold MINUTE, DAY. lia.
Qed.

Lemma filter_narrow {A} (c q r : A -> bool) (l : list A) :
  (forall a, In a l -> c a = true -> r a = true) ->
  List.filter c (List.filter (fun a => q a && r a) l) =
  List.filter c (List.filter q l).
Proof.
  induction l as [| a l IH]; intros H; [reflexivity |].
  cbn [List.filter].
  assert (IH' := IH (fun x Hx => H x (or_intror Hx))).
  destruct (q a); cbn [andb]; [| exact IH'].
  destruct (c a) eqn:Ec.
  - rewrite (H a (or_introl eq_refl) Ec). cbn [List.filter]. rewrite Ec. now f_equal.
  - destruct (r a); cbn [List.filter]; rewrite ?Ec; exact IH'.
Qed.

Lemma filter_ext_in_list {A} (f g : A -> bool) (l : list A) :
  (forall a, In a l -> f a = g a) -> List.filter f l = List.filter g l.
Proof.
  induction l as [| a l IH]; intros H; [reflexivity |].
  cbn [List.filter]. rewrite (H a (or_introl eq_refl)).
  rewrite (IH (fun x Hx => H x (or_intror Hx))). reflexivity.
Qed.

Lemma filter_filter_and {A} (f g : A -> bool) (l : list A) :
  List.filter f (List.filter g l) = List.filter (fun a => g a && f a) l.
Proof.
  induction l as [| a l IH]; [reflexivity |].
  cbn [List.filter]. destruct (g a); cbn [andb List.filter]; rewrite IH; reflexivity.
Qed.

Lemma requestConflict_inWindow (t : Z) (d : string) (l : list Appointment) :
  validDuration d = true -> storedDurationsValid l ->
  forall a, In a l -> requestConflict t d a = true -> inWindow t a = true.
Proof.
  intros Hd Hl a Ha Hc. unfold requestConflict in Hc.
  rewrite conflictsWith_overlapsRequestb in Hc by auto.
  apply overlapb_spec in Hc.
  pose proof (overlapsRequest_inWindow t d a Hd (Hl a Ha) Hc) as Hw.
  unfold inWindow. apply andb_true_iff. rewrite !Z.leb_le. lia.
Qed.

Lemma windowed_conflicts_unbounded (p : string) (t : Z) (d : string)
  (l : list Appointment) :
  validDuration d = true -> storedDurationsValid l ->
  List.filter (requestConflict t d) (windowedCandidates p t l) =
  List.filter (requestConflict t d) (unboundedCandidates p l).
Proof.
  intros Hd Hl. unfold windowedCandidates, unboundedCandidates.
  apply (filter_narrow (requestConflict t d)
           (fun a => String.eqb (providerId a) p && notCancelled a) (inWindow t)).
  now apply requestConflict_inWindow.
Qed.

(** C5.  For a validated request at [t] with duration [d] and a table whose
    stored durations all passed validation, every appointment overlapping
    the requested interval starts within 24 hours of [t], and the
    conflicts found in the windowed query are those an unbounded scan of
    the provider's appointments finds. *)
Theorem window_complete (p : string) (t : Z) (d : string) (l : list Appointment) :
  validDuration d = true ->
  storedDurationsValid l ->
  (forall a, In a l -> overlapsRequest t d a -> t - DAY <= date a <= t + DAY) /\
  List.filter (requestConflict t d) (windowedCandidates p t l) =
  List.filter (requestConflict t d) (unboundedCandidates p l).
Proof.
  intros Hd Hl. split.
  - intros a Ha Ho. exact (overlapsRequest_inWindow t d a Hd (Hl a Ha) Ho).
  - now apply windowed_conflicts_unbounded.
Qed.

Lemma window_complete_witness :
  validDuration "30 minutes" = true /\
  storedDurationsValid [tenOClock; farAway] /\
  (forall a, In a [tenOClock; farAway] ->
             overlapsRequest (clock 10 15) "30 minutes" a ->
             clock 10 15 - DAY <= date a <= clock 10 15 + DAY) /\
  List.filter (requestConflict (clock 10 15) "30 minutes")
    (windowedCandidates "prov-X" (clock 10 15) [tenOClock; farAway]) =
  List.filter (requestConflict (clock 10 15) "30 minutes")
    (unboundedCandidates "prov-X" [tenOClock; farAway]).
Proof.
  assert (Hl : storedDurationsValid [tenOClock; farAway]).
  { intros a [<- | [<- | []]]; reflexivity. }
  split; [reflexivity | split; [exact Hl |]].
  apply (window_complete "prov-X" (clock 10 15) "30 minutes" [tenOClock; farAway]);
    [reflexivity | exact Hl].
Defined.

(** ** C4: a booking that overlaps is refused and nothing is written *)

Lemma overlappingAppointments_In (p : string) (t : Z) (d : string)
  (l : list Appointment) (a : Appointment) :
  In a (overlappingAppointments p t d l) <->
  In a l /\ providerId a = p /\ status a <> CANCELLED /\ overlapsRequest t d a.
Proof.
  unfold overlappingAppointments. rewrite filter_In, !andb_true_iff.
  rewrite String.eqb_eq, notCancelled_spec.
  unfold overlapsRequestb. rewrite overlapb_spec. unfold overlapsRequest. tauto.
Qed.

Lemma windowed_conflicts_overlapping (p : string) (t : Z) (d : string)
  (l : list Appointment) :
  validDuration d = true -> storedDurationsValid l ->
  List.filter (requestConflict t d) (windowedCandidates p t l) =
  overlappingAppointments p t d l.
Proof.
  intros Hd Hl. rewrite windowed_conflicts_unbounded by assumption.
  unfold unboundedCandidates, overlappingAppointments.
  rewrite filter_filter_and. apply filter_ext_in_list.
  intros a Ha. f_equal. unfold requestConflict.
  apply conflictsWith_overlapsRequestb; auto.
Qed.

Lemma existsb_filter_nonempty {A} (f : A -> bool) (l : list A) :
  existsb f l = true <-> exists a, In a (List.filter f l).
Proof.
  rewrite existsb_exists. split; intros [a Ha]; exists a; now apply filter_In.
Qed.

Lemma appointmentSchema_duration (value : AppointmentBody) :
  appointmentSchema value = true -> validDuration (b_duration value) = true.
Proof. unfold appointmentSchema. rewrite !andb_true_iff. tauto. Qed.

(** C4.  When a validated request overlaps at least one appointment of the
    same provider that is not cancelled, the create route answers 409, the
    payload is the list of exactly those overlapping appointments, and the
    state is the one before the call. *)
Theorem book_conflict (newId : string) (value : AppointmentBody) (w : World) :
  appointmentSchema value = true ->
  storedDurationsValid (appointments w) ->
  (exists a, In a (appointments w) /\ providerId a = b_providerId value /\
             status a <> CANCELLED /\
             overlapsRequest (b_date value) (b_duration value) a) ->
  postAppointment newId value w =
  (Post409 (overlappingAppointments (b_providerId value) (b_date value)
              (b_duration value) (appointments w)), w).
Proof.
  intros Hv Hl [a Ha].
  pose proof (appointmentSchema_duration _ Hv) as Hd.
  pose proof (windowed_conflicts_overlapping (b_providerId value) (b_date value)
                (b_duration value) (appointments w) Hd Hl) as Heq.
  unfold postAppointment. rewrite Hv. cbn [negb].
  change (conflictsWith (Some (b_date value))
            (addScaled (Some (b_date value)) (durationMinutesOf (b_duration value)) MINUTE))
    with (requestConflict (b_date value) (b_duration value)).
  assert (He : existsb (requestConflict (b_date value) (b_duration value))
                 (windowedCandidates (b_providerId value) (b_date value) (appointments w))
               = true).
  { apply existsb_filter_nonempty. exists a. rewrite Heq.
    now apply overlappingAppointments_In. }
  rewrite He, Heq. reflexivity.
Qed.

(** Scenario B: the 10:15 request against the confirmed 10:00 appointment. *)
Lemma book_conflict_witness :
  appointmentSchema quarterPastTen = true /\
  storedDurationsValid (appointments (worldOf [tenOClock])) /\
  (exists a, In a (appointments (worldOf [tenOClock])) /\
             providerId a = b_providerId quarterPastTen /\
             status a <> CANCELLED /\
             overlapsRequest (b_date quarterPastTen) (b_duration quarterPastTen) a) /\
  postAppointment "apt-new" quarterPastTen (worldOf [tenOClock]) =
  (Post409 [tenOClock], worldOf [tenOClock]).
Proof.
  assert (Hl : storedDurationsValid (appointments (worldOf [tenOClock]))).
  { intros a [<- | []]; reflexivity. }
  assert (Ho : exists a, In a (appointments (worldOf [tenOClock])) /\
             providerId a = b_providerId quarterPastTen /\
             status a <> CANCELLED /\
             overlapsRequest (b_date quarterPastTen) (b_duration quarterPastTen) a).
  { exists tenOClock. split; [now left |]. split; [reflexivity |].
    split; [discriminate |]. split; vm_compute; reflexivity. }
  split; [reflexivity | split; [exact Hl | split; [exact Ho |]]].
  exact (book_conflict "apt-new" quarterPastTen (worldOf [tenOClock]) eq_refl Hl Ho).
Defined.

(** ** Sorting and lookups *)

Lemma insertByDate_In (a x : Appointment) (l : list Appointment) :
  In x (insertByDate a l) <-> x = a \/ In x l.
Proof.
  induction l as [| b l IH]; cbn [insertByDate].
  - cbn. intuition.
  - destruct (date a <=? date b); cbn [In]; [intuition |].
    rewrite IH. intuition.
Qed.

Lemma orderByDateAsc_In (x : Appointment) (l : list Appointment) :
  In x (orderByDateAsc l) <-> In x l.
Proof.
  induction l as [| a l IH]; cbn [orderByDateAsc fold_right]; [reflexivity |].
  fold (orderByDateAsc l). rewrite insertByDate_In, IH. cbn. intuition.
Qed.

Lemma existsb_false_In {A} (f : A -> bool) (l : list A) :
  existsb f l = false <-> forall a, In a l -> f a = false.
Proof.
  induction l as [| b l IH]; cbn [existsb In]; [intuition |].
  rewrite orb_false_iff, IH. split.
  - intros [Hb Hl] a [<- | Ha]; auto.
  - intros H. split; [apply H; now left | intros a Ha; apply H; now right].
Qed.

(** ** C3 and C2: what the availability route answers *)

(** No weekday name comes back for the style ['lowercase']: the call
    throws at any date. *)
Lemma toLocaleDateString_lowercase (tz t : Z) :
  toLocaleDateString tz "lowercase" t = None.
Proof. reflexivity. Qed.


(** C3, at the failing input.  For the provider of Scenario A, with
    09:00 to 12:00 under Monday, no appointment in the table and 30
    minutes asked for on a Monday, the route answers 500 in any time zone
    and returns no slot: the weekday lookup that precedes the slot loop
    throws. *)
Theorem scenarioA_answers_500 (tz : Z) :
  getAvailability tz askMondayThirty (Some (mondayNineToTwelve tz)) (worldOf []) =
    Some Avail500 /\
  slotsOf (getAvailability tz askMondayThirty (Some (mondayNineToTwelve tz)) (worldOf []))
    = [].
Proof. split; reflexivity. Qed.


(** ** C6: the diagnostic report compares neighbours only *)

(** C6, at the failing input.  The long appointment overlaps both later
    ones, the report lists its overlap with its neighbour only, and the
    pair made of the first and the third appointment is absent. *)
Theorem report_misses_nonadjacent :
  getConflicts (mkConflictsQuery (Some "prov-X") None None)
    (worldOf [longTen; shortQuarterPast; quarterToEleven]) =
    Conflicts200 3 [mkPair longTen shortQuarterPast 75] 1 /\
  appointmentsOverlap longTen quarterToEleven /\
  status longTen <> CANCELLED /\ status quarterToEleven <> CANCELLED.
Proof.
  split; [vm_compute; reflexivity |].
  split; [split; vm_compute; reflexivity |].
  split; discriminate.
Qed.

(** ** C7: the status route has no transition guard *)

Lemma findUnique_updateWhereId (i j : string) (f : Appointment -> Appointment)
  (l : list Appointment) :
  (forall a, id (f a) = id a) ->
  findUnique j (updateWhereId i f l) =
  if String.eqb j i then option_map f (findUnique j l) else findUnique j l.
Proof.
  intros Hf. unfold findUnique, updateWhereId.
  induction l as [| a l IH]; cbn [map find option_map].
  - destruct (String.eqb j i); reflexivity.
  - destruct (String.eqb (id a) i) eqn:Hai.
    + rewrite Hf. apply String.eqb_eq in Hai.
      destruct (String.eqb (id a) j) eqn:Haj.
      * apply String.eqb_eq in Haj.
        assert (Hji : String.eqb j i = true) by (apply String.eqb_eq; congruence).
        rewrite Hji. reflexivity.
      * exact IH.
    + destruct (String.eqb (id a) j) eqn:Haj; [| exact IH].
      apply String.eqb_eq in Haj. apply String.eqb_neq in Hai.
      assert (Hji : String.eqb j i = false) by (apply String.eqb_neq; congruence).
      rewrite Hji. reflexivity.
Qed.

(** C7, as the code has it.  A status update of an existing appointment is
    accepted whatever its current status, terminal ones included: the
    answer is 200 with the requested status, the stored row carries it, and
    no other row changes. *)
Theorem patchStatus_overwrites (i : string) (s : Status) (a : Appointment) (w : World) :
  findUnique i (appointments w) = Some a ->
  exists w',
    patchStatus i (Some s) w = (Patch200 (setStatus s a), w') /\
    status (setStatus s a) = s /\
    findUnique i (appointments w') = Some (setStatus s a) /\
    forall j, j <> i -> findUnique j (appointments w') = findUnique j (appointments w).
Proof.
  intros Hfind. unfold patchStatus. rewrite Hfind. eexists. split; [reflexivity |].
  split; [reflexivity |].
  cbn [emit createAuditLog setAppointments appointments].
  split.
  - rewrite findUnique_updateWhereId by reflexivity.
    rewrite String.eqb_refl, Hfind. reflexivity.
  - intros j Hj. rewrite findUnique_updateWhereId by reflexivity.
    apply String.eqb_neq in Hj. rewrite Hj. reflexivity.
Qed.

Lemma patchStatus_overwrites_witness :
  findUnique "apt-9" (appointments (worldOf [cancelledNine])) = Some cancelledNine /\
  exists w',
    patchStatus "apt-9" (Some COMPLETED) (worldOf [cancelledNine]) =
      (Patch200 (setStatus COMPLETED cancelledNine), w') /\
    status (setStatus COMPLETED cancelledNine) = COMPLETED /\
    findUnique "apt-9" (appointments w') = Some (setStatus COMPLETED cancelledNine) /\
    forall j, j <> "apt-9" ->
      findUnique j (appointments w') = findUnique j (appointments (worldOf [cancelledNine])).
Proof.
  split; [reflexivity |].
  apply (patchStatus_overwrites "apt-9" COMPLETED cancelledNine (worldOf [cancelledNine])).
  reflexivity.
Defined.

(** Moving a cancelled appointment to CONFIRMED is answered with 200 and
    the stored status becomes CONFIRMED. *)
Lemma cancelled_to_confirmed_accepted :
  status cancelledNine = CANCELLED /\
  exists data w',
    patchStatus "apt-9" (Some CONFIRMED) (worldOf [cancelledNine]) = (Patch200 data, w') /\
    status data = CONFIRMED /\
    option_map status (findUnique "apt-9" (appointments w')) = Some CONFIRMED /\
    appointments w' <> appointments (worldOf [cancelledNine]).
Proof.
  split; [reflexivity |]. eexists _, _. split; [vm_compute; reflexivity |].
  split; [reflexivity | split; [reflexivity | discriminate]].
Qed.

(** ** C8: the count of a bulk operation *)

Lemma filter_id_absent (i : string) (l : list Appointment) :
  ~ In i (map id l) -> List.filter (fun a => String.eqb (id a) i) l = [].
Proof.
  induction l as [| a l IH]; cbn [map In List.filter]; [reflexivity |].
  intros H. destruct (String.eqb (id a) i) eqn:E.
  - apply String.eqb_eq in E. tauto.
  - apply IH. tauto.
Qed.

Lemma findUnique_absent (i : string) (l : list Appointment) :
  ~ In i (map id l) -> findUnique i l = None.
Proof.
  unfold findUnique. induction l as [| a l IH]; cbn [map In find]; [reflexivity |].
  intros H. destruct (String.eqb (id a) i) eqn:E.
  - apply String.eqb_eq in E. tauto.
  - apply IH. tauto.
Qed.

(** A key names at most one row. *)
Lemma count_rows_with_id (i : string) (l : list Appointment) :
  List.NoDup (map id l) ->
  List.length (List.filter (fun a => String.eqb (id a) i) l) =
  if existsInStore l i then 1%nat else 0%nat.
Proof.
  unfold existsInStore, findUnique.
  induction l as [| a l IH]; cbn [map List.filter find]; [reflexivity |].
  intros Hnd. apply NoDup_cons_iff in Hnd as [Hnotin Hnd].
  destruct (String.eqb (id a) i) eqn:E.
  - apply String.eqb_eq in E. subst i.
    rewrite (filter_id_absent _ _ Hnotin). reflexivity.
  - now apply IH.
Qed.

Lemma length_filter_disjoint {A} (f g : A -> bool) (l : list A) :
  (forall a, In a l -> f a = true -> g a = false) ->
  List.length (List.filter (fun a => f a || g a) l) =
  (List.length (List.filter f l) + List.length (List.filter g l))%nat.
Proof.
  induction l as [| a l IH]; intros H; [reflexivity |].
  cbn [List.filter].
  assert (IH' := IH (fun x Hx => H x (or_intror Hx))).
  destruct (f a) eqn:Ef.
  - rewrite (H a (or_introl eq_refl) Ef). cbn [orb List.length]. lia.
  - cbn [orb]. destruct (g a); cbn [List.length]; lia.
Qed.

Lemma idIn_true (ids : list string) (a : Appointment) :
  idIn ids a = true <-> In (id a) ids.
Proof.
  unfold idIn. rewrite existsb_exists. split.
  - intros (x & Hx & E). apply String.eqb_eq in E. now subst.
  - intros H. exists (id a). split; [exact H | apply String.eqb_refl].
Qed.

Lemma idIn_same_members (ids ids' : list string) (a : Appointment) :
  (forall i, In i ids <-> In i ids') -> idIn ids a = idIn ids' a.
Proof.
  intros H. apply eq_true_iff_eq. rewrite !idIn_true. apply H.
Qed.

Lemma count_rows_named (ids : list string) (l : list Appointment) :
  List.NoDup (map id l) -> List.NoDup ids ->
  List.length (List.filter (idIn ids) l) =
  List.length (List.filter (existsInStore l) ids).
Proof.
  intros Hl. induction ids as [| i ids IH]; intros Hids.
  - cbn [List.filter List.length]. induction l as [| a l IHl]; [reflexivity |].
    cbn [List.filter idIn existsb]. apply IHl.
    now apply NoDup_cons_iff in Hl as [_ Hl].
  - apply NoDup_cons_iff in Hids as [Hnotin Hids].
    transitivity (List.length (List.filter (fun a => String.eqb (id a) i || idIn ids a) l)).
    { reflexivity. }
    rewrite length_filter_disjoint.
    + rewrite count_rows_with_id by assumption. rewrite IH by assumption.
      cbn [List.filter]. destruct (existsInStore l i); reflexivity.
    + intros a _ E. apply String.eqb_eq in E.
      destruct (idIn ids a) eqn:Hin; [| reflexivity].
      apply idIn_true in Hin. congruence.
Qed.

Lemma count_rows_existingIds (ids : list string) (l : list Appointment) :
  List.NoDup (map id l) ->
  List.length (List.filter (idIn ids) l) = List.length (existingIds ids l).
Proof.
  intros Hl. unfold existingIds.
  rewrite <- count_rows_named by (auto using NoDup_nodup).
  f_equal. apply filter_ext_in_list. intros a _.
  apply idIn_same_members. intros i. symmetry. apply nodup_In.
Qed.

(** C8.  On a table whose ids are unique, a bulk delete, or a bulk status
    update that carries a status, answers with an affected count equal to
    the number of ids of the request, each counted once, that were in the
    table before the call. *)
Theorem bulk_affected_count (body : BulkBody) (act : string) (ids : list string)
  (w : World) :
  List.NoDup (map id (appointments w)) ->
  bk_action body = Some act ->
  bk_appointmentIds body = Some ids ->
  act = "delete" \/ (act = "update-status" /\ bk_status body <> None) ->
  exists w',
    postBulk body w =
    (Bulk200 (Z.of_nat (List.length (existingIds ids (appointments w)))), w').
Proof.
  intros Hnd Ha Hi Hact. unfold postBulk. rewrite Ha, Hi.
  destruct Hact as [-> | [-> Hs]].
  - cbn [String.eqb Ascii.eqb Bool.eqb]. unfold bulkFinish, deleteMany. cbn [fst snd].
    rewrite count_rows_existingIds by assumption. eauto.
  - cbn [String.eqb Ascii.eqb Bool.eqb].
    destruct (bk_status body) as [s |]; [| congruence].
    unfold bulkFinish, updateMany. cbn [fst snd].
    rewrite count_rows_existingIds by assumption. eauto.
Qed.

(** Scenario D: five ids, two of them unknown. *)
Lemma bulk_affected_count_witness :
  List.NoDup (map id (appointments (worldOf threeStored))) /\
  bk_action deleteFive = Some "delete" /\
  bk_appointmentIds deleteFive = Some ["a1"; "gone-1"; "a2"; "gone-2"; "a3"] /\
  ("delete" = "delete" \/ ("delete" = "update-status" /\ bk_status deleteFive <> None)) /\
  exists w', postBulk deleteFive (worldOf threeStored) = (Bulk200 3, w').
Proof.
  assert (Hnd : List.NoDup (map id (appointments (worldOf threeStored)))).
  { cbn. repeat constructor; cbn; intuition discriminate. }
  split; [exact Hnd |]. split; [reflexivity |]. split; [reflexivity |].
  split; [now left |].
  exact (bulk_affected_count deleteFive "delete" ["a1"; "gone-1"; "a2"; "gone-2"; "a3"]
           (worldOf threeStored) Hnd eq_refl eq_refl (or_introl eq_refl)).
Defined.

(** ** C10: when the update route checks for conflicts *)

Lemma windowedCandidatesExcept_In (i p : string) (t : Z) (l : list Appointment)
  (a : Appointment) :
  In a (windowedCandidatesExcept i p t l) <->
  In a l /\ id a <> i /\ providerId a = p /\ status a <> CANCELLED /\
  inWindow t a = true.
Proof.
  unfold windowedCandidatesExcept. rewrite filter_In, !andb_true_iff.
  rewrite negb_true_iff, String.eqb_neq, String.eqb_eq, notCancelled_spec. tauto.
Qed.

Lemma updateHasConflict_spec (i : string) (value : UpdateBody)
  (existing : Appointment) (l : list Appointment) :
  updateHasConflict i value existing l = true <->
  (u_date value <> None \/ u_duration value <> None) /\
  exists a, In a l /\ id a <> i /\
    providerId a = default (providerId existing) (u_providerId value) /\
    status a <> CANCELLED /\
    inWindow (default (date existing) (u_date value)) a = true /\
    requestConflict (default (date existing) (u_date value))
      (default (duration existing) (u_duration value)) a = true.
Proof.
  unfold updateHasConflict.
  destruct (isSome (u_date value) || isSome (u_duration value)) eqn:Hsup.
  - rewrite existsb_exists. split.
    + intros (a & Ha & Hc). apply windowedCandidatesExcept_In in Ha. split.
      * destruct (u_date value), (u_duration value); cbn in Hsup;
          try discriminate; auto; left; discriminate.
      * exists a. tauto.
    + intros (_ & a & Ha). exists a. rewrite windowedCandidatesExcept_In. tauto.
  - split; [discriminate |]. intros ([H | H] & _);
      destruct (u_date value), (u_duration value); cbn in Hsup; congruence.
Qed.

(** The row with key [i] after [update], and the rows with another key. *)
Lemma updateWhereId_lookup (i j : string) (f : Appointment -> Appointment)
  (l : list Appointment) :
  (forall a, id (f a) = id a) ->
  findUnique j (updateWhereId i f l) =
  if String.eqb j i then option_map f (findUnique j l) else findUnique j l.
Proof.
  intros Hid. unfold findUnique, updateWhereId.
  induction l as [| a l IH]; cbn [map find option_map].
  - now destruct (String.eqb j i).
  - destruct (String.eqb_spec (id a) i) as [Hai | Hai].
    + rewrite Hid. destruct (String.eqb_spec (id a) j) as [Haj | Haj].
      * subst j. rewrite <- Hai, String.eqb_refl. reflexivity.
      * exact IH.
    + destruct (String.eqb_spec (id a) j) as [Haj | Haj]; [| exact IH].
      subst j. now destruct (String.eqb_spec (id a) i).
Qed.

(** C10.  For an accepted body and an existing appointment [i]: the update
    route finds a conflict exactly when the body carries a date or a
    duration and some other row, never row [i] itself, of the effective
    provider, not cancelled and inside the window, conflicts with the new
    interval; it answers 409 exactly then and leaves the state alone;
    otherwise, and always when the body carries neither date nor duration,
    the update is written.  Written means: the answer and the row then
    stored under [i] carry every field the body names with the body's
    value and every other field, and the key, as they were; one UPDATE
    entry is added to the audit log; and the rows under other keys read
    back as before. *)
Theorem update_conflict_check (i : string) (value : UpdateBody)
  (existing : Appointment) (w : World) :
  updateAppointmentSchema value = true ->
  findUnique i (appointments w) = Some existing ->
  (updateHasConflict i value existing (appointments w) = true <->
     (u_date value <> None \/ u_duration value <> None) /\
     exists a, In a (appointments w) /\ id a <> i /\
       providerId a = default (providerId existing) (u_providerId value) /\
       status a <> CANCELLED /\
       inWindow (default (date existing) (u_date value)) a = true /\
       requestConflict (default (date existing) (u_date value))
         (default (duration existing) (u_duration value)) a = true) /\
  (updateHasConflict i value existing (appointments w) = true ->
     putAppointment i value w = (Put409, w)) /\
  (updateHasConflict i value existing (appointments w) = false ->
     exists w',
       putAppointment i value w = (Put200 (applyUpdate value existing), w') /\
       appointments w' = updateWhereId i (applyUpdate value) (appointments w)) /\
  (u_date value = None -> u_duration value = None ->
     exists w',
       putAppointment i value w = (Put200 (applyUpdate value existing), w') /\
       appointments w' = updateWhereId i (applyUpdate value) (appointments w)) /\
  (forall stored w',
     putAppointment i value w = (Put200 stored, w') ->
     findUnique i (appointments w') = Some stored /\
     id stored = id existing /\
     patientId stored = default (patientId existing) (u_patientId value) /\
     providerId stored = default (providerId existing) (u_providerId value) /\
     locationId stored = default (locationId existing) (u_locationId value) /\
     date stored = default (date existing) (u_date value) /\
     duration stored = default (duration existing) (u_duration value) /\
     type stored = default (type existing) (u_type value) /\
     status stored = default (status existing) (u_status value) /\
     notes stored =
       match u_notes value with Some n => Some n | None => notes existing end /\
     List.length (appointments w') = List.length (appointments w) /\
     (forall j, j <> i ->
        findUnique j (appointments w') = findUnique j (appointments w)) /\
     auditLog w' = (auditLog w ++ [mkAudit "UPDATE" "appointment" (Some (id existing))])%list).
Proof.
  intros Hv Hfind.
  assert (Hok : updateHasConflict i value existing (appointments w) = false ->
     exists w',
       putAppointment i value w = (Put200 (applyUpdate value existing), w') /\
       appointments w' = updateWhereId i (applyUpdate value) (appointments w)).
  { intros Hno. unfold putAppointment. rewrite Hv, Hfind, Hno. cbn [negb].
    eexists. split; reflexivity. }
  split; [apply updateHasConflict_spec |].
  split; [| split; [exact Hok | split]].
  - intros Hc. unfold putAppointment. rewrite Hv, Hfind, Hc. reflexivity.
  - intros Hd Hdur. apply Hok. unfold updateHasConflict. rewrite Hd, Hdur. reflexivity.
  - intros stored w'. unfold putAppointment. rewrite Hv, Hfind. cbn [negb].
    destruct (updateHasConflict i value existing (appointments w)); [discriminate |].
    intros [= <- <-].
    cbn [emit createAuditLog setAppointments appointments auditLog applyUpdate
         id patientId providerId locationId date duration type status notes].
    assert (Hkey : forall a, id (applyUpdate value a) = id a) by reflexivity.
    repeat split.
    + rewrite (updateWhereId_lookup i i _ _ Hkey), String.eqb_refl, Hfind. reflexivity.
    + unfold updateWhereId. apply length_map.
    + intros j Hj. rewrite (updateWhereId_lookup i j _ _ Hkey).
      now destruct (String.eqb_spec j i).
Qed.

(** Two updates of the 10:00 appointment of provider X.  The first
    resends its own date and duration with nothing else in the table: the
    check runs, skips the row itself, and the update is written.  The
    second names provider Y, a status and a note, and neither date nor
    duration, while provider Y has an appointment at 10:00 of its own: no
    check runs, and the stored row has the new provider, status and note
    and its old date, so that provider Y now has two appointments at
    10:00. *)
Lemma update_conflict_check_witness :
  (updateAppointmentSchema resendOwnTime = true /\
   findUnique "apt-10" (appointments (worldOf [tenOClock])) = Some tenOClock /\
   requestConflict (clock 10 0) "30 minutes" tenOClock = true /\
   updateHasConflict "apt-10" resendOwnTime tenOClock [tenOClock] = false /\
   exists w',
     putAppointment "apt-10" resendOwnTime (worldOf [tenOClock]) =
       (Put200 (applyUpdate resendOwnTime tenOClock), w') /\
     appointments w' =
       updateWhereId "apt-10" (applyUpdate resendOwnTime)
         (appointments (worldOf [tenOClock]))) /\
  (updateAppointmentSchema handToY = true /\
   findUnique "apt-10" (appointments twoProviders) = Some tenOClock /\
   u_date handToY = None /\ u_duration handToY = None /\
   requestConflict (clock 10 0) "30 minutes" tenOfY = true /\
   exists stored w',
     putAppointment "apt-10" handToY twoProviders = (Put200 stored, w') /\
     findUnique "apt-10" (appointments w') = Some stored /\
     providerId stored = "prov-Y" /\ status stored = COMPLETED /\
     notes stored = Some "seen by Y" /\
     date stored = clock 10 0 /\ duration stored = "30 minutes" /\
     findUnique "apt-y" (appointments w') = Some tenOfY).
Proof.
  split.
  - split; [reflexivity | split; [reflexivity | split; [reflexivity |]]].
    split; [reflexivity |].
    exact (proj1 (proj2 (proj2
      (update_conflict_check "apt-10" resendOwnTime tenOClock (worldOf [tenOClock])
         eq_refl eq_refl))) eq_refl).
  - split; [reflexivity | split; [reflexivity | split; [reflexivity |]]].
    split; [reflexivity | split; [reflexivity |]].
    pose proof (update_conflict_check "apt-10" handToY tenOClock twoProviders
                  eq_refl eq_refl) as (_ & _ & _ & Hwritten & Hstored).
    destruct (Hwritten eq_refl eq_refl) as (w' & Hput & _).
    destruct (Hstored _ _ Hput)
      as (Hread & _ & _ & Hp & _ & Hd & Hdur & _ & Hs & Hn & _ & Hothers & _).
    exists (applyUpdate handToY tenOClock), w'.
    split; [exact Hput | split; [exact Hread |]].
    split; [exact Hp | split; [exact Hs | split; [exact Hn |]]].
    split; [exact Hd | split; [exact Hdur |]].
    rewrite (Hothers "apt-y"); [reflexivity | discriminate].
Defined.

(** ** C9: hour buckets of a location *)

Lemma bump_lookup (s h : Z) (m : gmap Z Z) :
  default 0 (bump s m !! h) = default 0 (m !! h) + (if s =? h then 1 else 0).
Proof.
  unfold bump. destruct (Z.eqb_spec s h) as [-> | Hne].
  - rewrite lookup_insert_eq. reflexivity.
  - rewrite lookup_insert_ne by assumption. lia.
Qed.

Lemma forHours_lookup (n : nat) :
  forall (s h : Z) (m : gmap Z Z),
    default 0 (forHours n s m !! h) =
    default 0 (m !! h) + (if (s <=? h) && (h <? s + Z.of_nat n) then 1 else 0).
Proof.
  induction n as [| n IH]; intros s h m; cbn [forHours].
  - destruct (Z.leb_spec s h), (Z.ltb_spec h (s + Z.of_nat 0)); cbn; lia.
  - rewrite IH, bump_lookup.
    destruct (Z.eqb_spec s h), (Z.leb_spec (s + 1) h), (Z.leb_spec s h),
      (Z.ltb_spec h (s + 1 + Z.of_nat n)), (Z.ltb_spec h (s + Z.of_nat (S n)));
      cbn [andb]; lia.
Qed.

Lemma countAppointment_lookup (tz h : Z) (m : gmap Z Z) (a : Appointment) :
  default 0 (countAppointment tz m a !! h) =
  default 0 (m !! h) + (if coversb tz h a then 1 else 0).
Proof.
  unfold countAppointment, coversb.
  destruct (durationMinutesOf (duration a)) as [dm |]; [| lia].
  rewrite forHours_lookup.
  set (hr := getHours tz (date a)).
  set (e := ceilDiv60 (getMinutes tz (date a) + dm) + hr).
  destruct (Z.leb_spec hr h), (Z.ltb_spec h (hr + Z.of_nat (Z.to_nat (e - hr)))),
    (Z.ltb_spec h e); cbn [andb]; lia.
Qed.

Lemma fold_countAppointment_lookup (tz h : Z) (l : list Appointment) :
  forall m : gmap Z Z,
    default 0 (fold_left (countAppointment tz) l m !! h) =
    default 0 (m !! h) + Z.of_nat (List.length (List.filter (coversb tz h) l)).
Proof.
  induction l as [| a l IH]; intros m; cbn [fold_left List.filter].
  - cbn. lia.
  - rewrite IH, countAppointment_lookup.
    destruct (coversb tz h a); cbn [List.length]; lia.
Qed.

Lemma hourlyCountOf_lookup (tz h : Z) (l : list Appointment) :
  default 0 (hourlyCountOf tz l !! h) =
  Z.of_nat (List.length (List.filter (coversb tz h) l)).
Proof.
  unfold hourlyCountOf. rewrite fold_countAppointment_lookup.
  rewrite lookup_empty. reflexivity.
Qed.

Lemma insertByDate_filter_length (f : Appointment -> bool) (a : Appointment)
  (l : list Appointment) :
  List.length (List.filter f (insertByDate a l)) =
  List.length (List.filter f (a :: l)).
Proof.
  induction l as [| b l IH]; cbn [insertByDate]; [reflexivity |].
  destruct (date a <=? date b); [reflexivity |].
  cbn [List.filter] in *.
  destruct (f a), (f b); cbn [List.length] in *; lia.
Qed.

Lemma orderByDateAsc_filter_length (f : Appointment -> bool) (l : list Appointment) :
  List.length (List.filter f (orderByDateAsc l)) = List.length (List.filter f l).
Proof.
  induction l as [| a l IH]; cbn [orderByDateAsc fold_right]; [reflexivity |].
  fold (orderByDateAsc l). rewrite insertByDate_filter_length.
  cbn [List.filter]. destruct (f a); cbn [List.length]; lia.
Qed.

Lemma orderByDateAsc_length (l : list Appointment) :
  List.length (orderByDateAsc l) = List.length l.
Proof.
  pose proof (orderByDateAsc_filter_length (fun _ => true) l) as H.
  rewrite !(forallb_filter_id (fun _ => true)) in H; [exact H | |];
    apply forallb_forall; reflexivity.
Qed.

(** On the day of the report, for a validated duration and a start on a
    whole minute, the hours the loop adds to are the hours the
    appointment's interval intersects. *)
Lemma coversb_intersectsHourb (tz selectedDate h : Z) (a : Appointment) :
  onDay tz selectedDate a = true ->
  validDuration (duration a) = true ->
  onWholeMinute tz a ->
  coversb tz h a = intersectsHourb tz selectedDate h a.
Proof.
  intros Hday Hd Hmin.
  destruct (validDuration_minutes _ Hd) as (dm & Hdm & Hb).
  unfold coversb, intersectsHourb, endOf, minutesOf. rewrite Hdm.
  cbn [default from_option Datatypes.id].
  unfold onDay, endOfDay in Hday. apply andb_true_iff in Hday as [H1 H2].
  apply Z.leb_le in H1. apply Z.leb_le in H2.
  unfold onWholeMinute in Hmin.
  unfold overlapb, hourStart, getHours, getMinutes, ceilDiv60, MINUTE.
  unfold startOfDay in *.
  apply eq_true_iff_eq. rewrite !andb_true_iff, Z.leb_le, !Z.ltb_lt.
  set (L := date a + tz) in *.
  pose proof (Z.div_mod (selectedDate + tz) 86400000 ltac:(lia)) as Eday.
  pose proof (Z.mod_pos_bound (selectedDate + tz) 86400000 ltac:(lia)) as Bday.
  set (qd := (selectedDate + tz) / 86400000) in *.
  set (rd := (selectedDate + tz) mod 86400000) in *.
  pose proof (Z.div_mod L 3600000 ltac:(lia)) as Ehr.
  pose proof (Z.mod_pos_bound L 3600000 ltac:(lia)) as Bhr.
  set (qh := L / 3600000) in *. set (rh := L mod 3600000) in *.
  pose proof (Z.div_mod qh 24 ltac:(lia)) as E24.
  pose proof (Z.mod_pos_bound qh 24 ltac:(lia)) as B24.
  set (q24 := qh / 24) in *. set (hr := qh mod 24) in *.
  pose proof (Z.div_mod L 60000 ltac:(lia)) as Emin.
  rewrite Hmin in Emin.
  set (qm := L / 60000) in *.
  pose proof (Z.div_mod qm 60 ltac:(lia)) as E60.
  pose proof (Z.mod_pos_bound qm 60 ltac:(lia)) as B60.
  set (q60 := qm / 60) in *. set (mm := qm mod 60) in *.
  pose proof (Z.div_mod (mm + dm + 59) 60 ltac:(lia)) as Ec.
  pose proof (Z.mod_pos_bound (mm + dm + 59) 60 ltac:(lia)) as Bc.
  set (c := (mm + dm + 59) / 60) in *. set (rc := (mm + dm + 59) mod 60) in *.
  assert (Hq : q24 = qd) by lia.
  assert (Hh : q60 = qh) by lia.
  assert (Hr : rh = 60000 * mm) by lia.
  assert (Ht : date a = L - tz) by (unfold L; lia).
  assert (Hs : selectedDate = 86400000 * qd + rd - tz) by lia.
  clearbody L qd rd qh rh q24 hr qm q60 mm c rc.
  subst q24 q60 rh. rewrite Ht, Hs. clear Ht Hs H1 H2.
  lia.
Qed.

Lemma locationWhere_onDay (tz : Z) (i : string) (selectedDate : Z) (a : Appointment) :
  locationWhere tz i selectedDate a = true -> onDay tz selectedDate a = true.
Proof. unfold locationWhere. rewrite !andb_true_iff. tauto. Qed.

Lemma hourlyCount_occupiedAt (tz : Z) (i : string) (selectedDate h : Z)
  (l : list Appointment) :
  (forall a, In a l -> locationWhere tz i selectedDate a = true ->
             validDuration (duration a) = true /\ onWholeMinute tz a) ->
  default 0 (hourlyCountOf tz
               (orderByDateAsc (List.filter (locationWhere tz i selectedDate) l)) !! h) =
  occupiedAt tz i selectedDate h l.
Proof.
  intros Hok. rewrite hourlyCountOf_lookup, orderByDateAsc_filter_length.
  rewrite filter_filter_and. unfold occupiedAt. do 2 f_equal.
  apply filter_ext_in_list. intros a Ha.
  destruct (locationWhere tz i selectedDate a) eqn:Hw; cbn [andb]; [| reflexivity].
  destruct (Hok a Ha Hw) as [Hd Hm].
  apply coversb_intersectsHourb;
    [exact (locationWhere_onDay tz i selectedDate a Hw) | exact Hd | exact Hm].
Qed.

(** C9, as the code has it.  For an existing location, when the counted
    appointments have validated durations and start on whole minutes, the
    report has one bucket per hour from 8 to 18; its occupied count is the
    number of appointments at the location on that day, not cancelled,
    whose interval intersects the hour; the available count is
    max(0, capacity - occupied) and the bucket is available exactly when
    occupied is below capacity.  Above capacity the bucket shows the full
    occupied count, zero available, and is not available. *)
Theorem location_buckets (tz : Z) (i : string) (selectedDate : Z)
  (location : Location) (w : World) :
  find (fun l => String.eqb (loc_id l) i) (locations w) = Some location ->
  (forall a, In a (appointments w) -> locationWhere tz i selectedDate a = true ->
             validDuration (duration a) = true /\ onWholeMinute tz a) ->
  exists total full,
    getLocationAvailability tz i (Some selectedDate) w =
      LocAvail200 total
        (map (expectedBucket tz i selectedDate (capacity location) (appointments w))
           (seqZ 8 11))
        full /\
    forall h,
      let b := expectedBucket tz i selectedDate (capacity location) (appointments w) h in
      currentAppointments b = occupiedAt tz i selectedDate h (appointments w) /\
      availableSlots b = Z.max 0 (capacity location - currentAppointments b) /\
      isAvailable b = (currentAppointments b <? capacity location) /\
      (capacity location < currentAppointments b ->
       availableSlots b = 0 /\ isAvailable b = false).
Proof.
  intros Hfind Hok. unfold getLocationAvailability. rewrite Hfind.
  eexists _, _. split.
  - f_equal. apply map_ext. intros h. unfold bucketOf, expectedBucket.
    rewrite hourlyCount_occupiedAt by assumption. reflexivity.
  - intros h. cbv zeta. unfold expectedBucket.
    cbn [currentAppointments availableSlots isAvailable].
    repeat split; [lia | apply Z.ltb_ge; lia].
Qed.

(** Scenario C: capacity 2 and three appointments in the 14:00 hour. *)
Lemma location_buckets_witness :
  find (fun l => String.eqb (loc_id l) "loc-1") (locations crowdedWorld) =
    Some (mkLocation "loc-1" "Main" 2) /\
  (forall a, In a (appointments crowdedWorld) ->
             locationWhere 0 "loc-1" monday a = true ->
             validDuration (duration a) = true /\ onWholeMinute 0 a) /\
  expectedBucket 0 "loc-1" monday 2 crowdedTwoPm 14 = mkBucket 14 3 0 false /\
  exists total full,
    getLocationAvailability 0 "loc-1" (Some monday) crowdedWorld =
      LocAvail200 total
        (map (expectedBucket 0 "loc-1" monday 2 crowdedTwoPm) (seqZ 8 11)) full /\
    forall h,
      let b := expectedBucket 0 "loc-1" monday 2 crowdedTwoPm h in
      currentAppointments b = occupiedAt 0 "loc-1" monday h crowdedTwoPm /\
      availableSlots b = Z.max 0 (2 - currentAppointments b) /\
      isAvailable b = (currentAppointments b <? 2) /\
      (2 < currentAppointments b -> availableSlots b = 0 /\ isAvailable b = false).
Proof.
  assert (Hok : forall a, In a (appointments crowdedWorld) ->
            locationWhere 0 "loc-1" monday a = true ->
            validDuration (duration a) = true /\ onWholeMinute 0 a).
  { intros a [<- | [<- | [<- | []]]] _; split; reflexivity. }
  split; [reflexivity | split; [exact Hok | split; [reflexivity |]]].
  exact (location_buckets 0 "loc-1" monday (mkLocation "loc-1" "Main" 2) crowdedWorld
           eq_refl Hok).
Defined.

(** An appointment from 14:00:30 to 15:00:30 reaches into the 15:00 hour,
    yet the bucket of 15:00 shows nobody. *)
Lemma half_minute_not_counted :
  exists total buckets full,
    getLocationAvailability 0 "loc-1" (Some monday) (worldOf [halfMinutePastTwo]) =
      LocAvail200 total buckets full /\
    In (mkBucket 15 0 2 true) buckets /\
    intersectsHour 0 monday 15 halfMinutePastTwo /\
    occupiedAt 0 "loc-1" monday 15 (appointments (worldOf [halfMinutePastTwo])) = 1.
Proof.
  eexists _, _, _. split; [vm_compute; reflexivity |].
  split; [do 7 right; left; reflexivity |].
  split; [split; vm_compute; reflexivity | reflexivity].
Qed.

(** ** The routes keep the table well formed *)

Lemma findUnique_None (i : string) (l : list Appointment) :
  findUnique i l = None -> ~ In i (map id l).
Proof.
  unfold findUnique. induction l as [| a l IH]; cbn [find map In]; [tauto |].
  destruct (String.eqb (id a) i) eqn:E; [discriminate |].
  apply String.eqb_neq in E. intros H [Ha | Hin]; [congruence | now apply IH].
Qed.

Lemma findUnique_Some (i : string) (l : list Appointment) (a : Appointment) :
  findUnique i l = Some a -> In a l /\ id a = i.
Proof.
  unfold findUnique. intros H. apply find_some in H as [Hin E].
  apply String.eqb_eq in E. auto.
Qed.

Lemma map_id_rewrite (g : Appointment -> Appointment) (l : list Appointment) :
  (forall a, id (g a) = id a) -> map id (map g l) = map id l.
Proof.
  intros Hg. rewrite map_map. apply map_ext. exact Hg.
Qed.

Lemma NoDup_map_id_filter (f : Appointment -> bool) (l : list Appointment) :
  List.NoDup (map id l) -> List.NoDup (map id (List.filter f l)).
Proof.
  induction l as [| a l IH]; cbn [map List.filter]; [auto |].
  intros Hnd. apply NoDup_cons_iff in Hnd as [Hnotin Hnd].
  destruct (f a); cbn [map]; [| auto].
  apply NoDup_cons_iff. split; [| auto].
  intros Hin. apply Hnotin. apply in_map_iff in Hin as (x & Hx & Hxin).
  apply filter_In in Hxin as [Hxin _]. apply in_map_iff. eauto.
Qed.

Lemma tableOk_map (g : Appointment -> Appointment) (l : list Appointment) :
  (forall a, id (g a) = id a) ->
  (forall a, In a l -> validDuration (duration (g a)) = true) ->
  tableOk l -> tableOk (map g l).
Proof.
  intros Hid Hdur [Hnd Hv]. split.
  - now rewrite map_id_rewrite.
  - intros b Hb. apply in_map_iff in Hb as (a & <- & Ha). auto.
Qed.

Lemma tableOk_filter (f : Appointment -> bool) (l : list Appointment) :
  tableOk l -> tableOk (List.filter f l).
Proof.
  intros [Hnd Hv]. split; [now apply NoDup_map_id_filter |].
  intros a Ha. apply filter_In in Ha as [Ha _]. auto.
Qed.

Lemma postAppointment_tableOk (newId : string) (value : AppointmentBody)
  (w w' : World) (r : PostResult) :
  postAppointment newId value w = (r, w') ->
  tableOk (appointments w) -> tableOk (appointments w').
Proof.
  unfold postAppointment.
  destruct (appointmentSchema value) eqn:Hv; cbn [negb]; [| now intros [= _ <-]].
  destruct (existsb _ _); [now intros [= _ <-] |].
  unfold create. destruct (findUnique newId (appointments w)) eqn:Hf;
    [now intros [= _ <-] |].
  intros [= _ <-] [Hnd Hd].
  cbn [emit createAuditLog setAppointments appointments]. split.
  - rewrite map_app. cbn [map id].
    apply List.NoDup_app; [exact Hnd | repeat constructor; cbn; tauto |].
    intros x Hx [<- | []]. exact (findUnique_None _ _ Hf Hx).
  - intros a Ha. apply in_app_iff in Ha as [Ha | [<- | []]]; [auto |].
    cbn [duration]. now apply appointmentSchema_duration.
Qed.

Lemma putAppointment_tableOk (i : string) (value : UpdateBody) (w w' : World)
  (r : PutResult) :
  putAppointment i value w = (r, w') ->
  tableOk (appointments w) -> tableOk (appointments w').
Proof.
  unfold putAppointment.
  destruct (updateAppointmentSchema value) eqn:Hv; cbn [negb]; [| now intros [= _ <-]].
  destruct (findUnique i (appointments w)) as [ex |]; [| now intros [= _ <-]].
  destruct (updateHasConflict _ _ _ _); [now intros [= _ <-] |].
  intros [= _ <-] Hok. cbn [emit createAuditLog setAppointments appointments].
  unfold updateWhereId. apply tableOk_map; [| | exact Hok].
  - intros a. destruct (String.eqb (id a) i); reflexivity.
  - intros a Ha. destruct Hok as [_ Hd].
    destruct (String.eqb (id a) i); [| auto].
    cbn [applyUpdate duration]. unfold updateAppointmentSchema in Hv.
    rewrite !andb_true_iff in Hv. destruct Hv as [_ Hdur].
    destruct (u_duration value); cbn [optValid default from_option Datatypes.id] in *;
      [exact Hdur | exact (Hd a Ha)].
Qed.

Lemma patchStatus_tableOk (i : string) (s : option Status) (w w' : World)
  (r : PatchResult) :
  patchStatus i s w = (r, w') ->
  tableOk (appointments w) -> tableOk (appointments w').
Proof.
  unfold patchStatus. destruct s as [s |]; [| now intros [= _ <-]].
  destruct (findUnique i (appointments w)) as [ex |]; [| now intros [= _ <-]].
  intros [= _ <-] Hok. cbn [emit createAuditLog setAppointments appointments].
  unfold updateWhereId. apply tableOk_map; [| | exact Hok].
  - intros a. destruct (String.eqb (id a) i); reflexivity.
  - intros a Ha. destruct Hok as [_ Hd].
    destruct (String.eqb (id a) i); cbn [setStatus duration]; auto.
Qed.

Lemma postBulk_tableOk (body : BulkBody) (w w' : World) (r : BulkResult) :
  postBulk body w = (r, w') ->
  tableOk (appointments w) -> tableOk (appointments w').
Proof.
  unfold postBulk.
  destruct (bk_action body) as [act |]; [| now intros [= _ <-]].
  destruct (bk_appointmentIds body) as [ids |]; [| now intros [= _ <-]].
  destruct (String.eqb act ""); [now intros [= _ <-] |].
  destruct (String.eqb act "delete").
  { intros [= _ <-] Hok. cbn. now apply tableOk_filter. }
  destruct (String.eqb act "update-status"); [| now intros [= _ <-]].
  destruct (bk_status body) as [s |]; [| now intros [= _ <-]].
  intros [= _ <-] Hok. cbn [bulkFinish updateMany snd emit createAuditLog
                              setAppointments appointments].
  apply tableOk_map; [| | exact Hok].
  - intros a. destruct (idIn ids a); reflexivity.
  - intros a Ha. destruct Hok as [_ Hd].
    destruct (idIn ids a); cbn [setStatus duration]; auto.
Qed.

(** ** More on the create route *)

(** What a 201 answer tells about the request and the state. *)
Lemma postAppointment_created_inv (newId : string) (value : AppointmentBody)
  (w w' : World) (apt : Appointment) :
  postAppointment newId value w = (Post201 apt, w') ->
  appointmentSchema value = true /\
  findUnique newId (appointments w) = None /\
  existsb (requestConflict (b_date value) (b_duration value))
    (windowedCandidates (b_providerId value) (b_date value) (appointments w)) = false /\
  apt = createdFrom newId value /\
  appointments w' = (appointments w ++ [apt])%list.
Proof.
  unfold postAppointment.
  destruct (appointmentSchema value) eqn:Hv; cbn [negb]; [| discriminate].
  change (conflictsWith (Some (b_date value))
            (addScaled (Some (b_date value)) (durationMinutesOf (b_duration value)) MINUTE))
    with (requestConflict (b_date value) (b_duration value)).
  destruct (existsb _ _) eqn:He; [discriminate |].
  unfold create. destruct (findUnique newId (appointments w)) eqn:Hf; [discriminate |].
  intros [= <- <-]. repeat split; reflexivity.
Qed.

Lemma overlap_sym (s1 e1 s2 e2 : Z) : overlap s1 e1 s2 e2 <-> overlap s2 e2 s1 e1.
Proof. unfold overlap. tauto. Qed.

(** With validated durations, a request that passed the conflict check
    overlaps none of the provider's appointments that are not cancelled. *)
Lemma passed_check_no_overlap (p : string) (t : Z) (d : string)
  (l : list Appointment) :
  validDuration d = true -> storedDurationsValid l ->
  existsb (requestConflict t d) (windowedCandidates p t l) = false ->
  forall a, In a l -> providerId a = p -> status a <> CANCELLED ->
            ~ overlapsRequest t d a.
Proof.
  intros Hd Hl He a Ha Hp Hs Ho.
  assert (Hin : In a (overlappingAppointments p t d l))
    by (apply overlappingAppointments_In; auto).
  rewrite <- windowed_conflicts_overlapping in Hin by assumption.
  assert (Ht : existsb (requestConflict t d) (windowedCandidates p t l) = true)
    by (apply existsb_filter_nonempty; eauto).
  congruence.
Qed.

(** X1.  Booking, served without interleaving, keeps the provider's
    calendar free of overlaps.  When the table the conflict query read is
    the table the create then writes to, that is when no other request is
    served between the two awaits, then on a well formed table in which no
    two live appointments of one provider overlap, the table after a
    create request, whatever its answer, still has no two overlapping live
    appointments of one provider. *)
Theorem booking_keeps_pairwiseFree (seen : list Appointment) (newId : string)
  (value : AppointmentBody) (w w' : World) (r : PostResult) :
  tableOk (appointments w) ->
  pairwiseFree (appointments w) ->
  seen = appointments w ->
  postAppointmentOn seen newId value w = (r, w') ->
  pairwiseFree (appointments w').
Proof.
  intros [Hnd Hl] Hfree -> Hpost.
  change (postAppointment newId value w = (r, w')) in Hpost.
  destruct r as [apt | | cs |].
  2-4: (assert (w' = w) as ->; [| exact Hfree]);
       revert Hpost; unfold postAppointment;
       destruct (negb (appointmentSchema value)); [now intros [= <-] |];
       destruct (existsb _ _); [now intros [= _ <-] |];
       destruct (create newId value (appointments w)); [discriminate | now intros [= <-]].
  apply postAppointment_created_inv in Hpost as (Hv & Hfresh & He & -> & ->).
  pose proof (appointmentSchema_duration _ Hv) as Hd.
  pose proof (passed_check_no_overlap _ _ _ _ Hd Hl He) as Hclear.
  assert (Hnew : forall a, In a (appointments w) ->
            providerId a = b_providerId value -> status a <> CANCELLED ->
            ~ appointmentsOverlap a (createdFrom newId value)).
  { intros a Ha Hp Hs Ho. apply (Hclear a Ha Hp Hs).
    unfold overlapsRequest. apply overlap_sym. exact Ho. }
  intros a b Ha Hb Hne Hp Hsa Hsb.
  apply in_app_iff in Ha as [Ha | [<- | []]];
    apply in_app_iff in Hb as [Hb | [<- | []]].
  - now apply Hfree.
  - now apply Hnew.
  - intros Ho. apply (Hnew b Hb); [now symmetry | assumption |].
    unfold appointmentsOverlap in *. now apply overlap_sym.
  - congruence.
Qed.

Lemma booking_keeps_pairwiseFree_witness :
  tableOk (appointments (worldOf [tenOClock])) /\
  pairwiseFree (appointments (worldOf [tenOClock])) /\
  [tenOClock] = appointments (worldOf [tenOClock]) /\
  fst (postAppointmentOn [tenOClock] "apt-11" elevenOClock (worldOf [tenOClock])) =
    Post201 (createdFrom "apt-11" elevenOClock) /\
  pairwiseFree
    (appointments
       (snd (postAppointmentOn [tenOClock] "apt-11" elevenOClock (worldOf [tenOClock])))).
Proof.
  assert (Hok : tableOk (appointments (worldOf [tenOClock]))).
  { split; [repeat constructor; cbn; tauto | intros a [<- | []]; reflexivity]. }
  assert (Hfree : pairwiseFree (appointments (worldOf [tenOClock]))).
  { intros a b [<- | []] [<- | []] Hne. congruence. }
  split; [exact Hok | split; [exact Hfree | split; [reflexivity | split; [reflexivity |]]]].
  exact (booking_keeps_pairwiseFree [tenOClock] "apt-11" elevenOClock
           (worldOf [tenOClock]) _ _ Hok Hfree eq_refl eq_refl).
Defined.

(** X26.  With another request served between the two awaits, the check
    does not protect the calendar.  Take a create request answered 201
    with an appointment that is not cancelled, and a second request with
    the same body whose conflict query ran before the first was written,
    so that it read the table as it was before, and whose create runs
    after: the second is answered 201 as well, both appointments are
    stored, they overlap, and the table is no longer free of overlaps. *)
Theorem stale_check_double_books (newId newId' : string) (value : AppointmentBody)
  (w w1 : World) (apt : Appointment) :
  postAppointment newId value w = (Post201 apt, w1) ->
  status apt <> CANCELLED ->
  findUnique newId' (appointments w1) = None ->
  exists apt' w2,
    postAppointmentOn (appointments w) newId' value w1 = (Post201 apt', w2) /\
    In apt (appointments w2) /\ In apt' (appointments w2) /\
    id apt <> id apt' /\ providerId apt = providerId apt' /\
    status apt' <> CANCELLED /\
    appointmentsOverlap apt apt' /\
    ~ pairwiseFree (appointments w2).
Proof.
  intros Hpost Hs Hfresh.
  apply postAppointment_created_inv in Hpost as (Hv & _ & He & Hapt & Happ).
  pose proof (appointmentSchema_duration _ Hv) as Hd.
  destruct (validDuration_minutes _ Hd) as (m & Hm & Hmb).
  assert (Hne : newId <> newId').
  { intros <-. rewrite Happ in Hfresh.
    apply (findUnique_None _ _ Hfresh). rewrite map_app. apply in_app_iff.
    right. subst apt. now left. }
  assert (Hover : appointmentsOverlap apt (createdFrom newId' value)).
  { subst apt. unfold appointmentsOverlap, overlap, endOf, minutesOf.
    cbn [createdFrom date duration]. rewrite Hm.
    cbn [default from_option Datatypes.id]. unfold MINUTE. lia. }
  assert (Hrun : exists w2,
            postAppointmentOn (appointments w) newId' value w1 =
              (Post201 (createdFrom newId' value), w2) /\
            appointments w2 = (appointments w1 ++ [createdFrom newId' value])%list).
  { unfold postAppointmentOn. rewrite Hv. cbn [negb].
    change (conflictsWith (Some (b_date value))
              (addScaled (Some (b_date value)) (durationMinutesOf (b_duration value))
                 MINUTE))
      with (requestConflict (b_date value) (b_duration value)).
    rewrite He. unfold create. rewrite Hfresh. eexists. split; reflexivity. }
  destruct Hrun as (w2 & Hrun & Happ2).
  assert (Hin1 : In apt (appointments w2)).
  { rewrite Happ2, Happ. apply in_app_iff. left. apply in_app_iff. right. now left. }
  assert (Hin2 : In (createdFrom newId' value) (appointments w2)).
  { rewrite Happ2. apply in_app_iff. right. now left. }
  assert (Hid : id apt <> id (createdFrom newId' value)) by (subst apt; exact Hne).
  assert (Hp : providerId apt = providerId (createdFrom newId' value))
    by (subst apt; reflexivity).
  assert (Hs' : status (createdFrom newId' value) <> CANCELLED)
    by (subst apt; exact Hs).
  exists (createdFrom newId' value), w2.
  repeat (split; [assumption |]).
  intros Hfree. exact (Hfree _ _ Hin1 Hin2 Hid Hp Hs Hs' Hover).
Qed.

Lemma stale_check_double_books_witness :
  postAppointment "apt-11" elevenOClock (worldOf [tenOClock]) =
    (Post201 (createdFrom "apt-11" elevenOClock),
     snd (postAppointment "apt-11" elevenOClock (worldOf [tenOClock]))) /\
  status (createdFrom "apt-11" elevenOClock) <> CANCELLED /\
  findUnique "apt-12"
    (appointments (snd (postAppointment "apt-11" elevenOClock (worldOf [tenOClock])))) =
    None /\
  exists apt' w2,
    postAppointmentOn (appointments (worldOf [tenOClock])) "apt-12" elevenOClock
      (snd (postAppointment "apt-11" elevenOClock (worldOf [tenOClock]))) =
      (Post201 apt', w2) /\
    In (createdFrom "apt-11" elevenOClock) (appointments w2) /\
    In apt' (appointments w2) /\
    id (createdFrom "apt-11" elevenOClock) <> id apt' /\
    providerId (createdFrom "apt-11" elevenOClock) = providerId apt' /\
    status apt' <> CANCELLED /\
    appointmentsOverlap (createdFrom "apt-11" elevenOClock) apt' /\
    ~ pairwiseFree (appointments w2).
Proof.
  assert (Hs : status (createdFrom "apt-11" elevenOClock) <> CANCELLED) by discriminate.
  split; [reflexivity | split; [exact Hs | split; [reflexivity |]]].
  exact (stale_check_double_books "apt-11" "apt-12" elevenOClock (worldOf [tenOClock]) _ _
           eq_refl Hs eq_refl).
Defined.

(** X2.  The same booking cannot be made twice: once a create request has
    been answered 201 with an appointment that is not cancelled, sending
    the same body again is answered 409, the first appointment is among
    the conflicts listed, and nothing is written. *)
Theorem second_booking_refused (newId newId' : string) (value : AppointmentBody)
  (w w' : World) (apt : Appointment) :
  tableOk (appointments w) ->
  postAppointment newId value w = (Post201 apt, w') ->
  status apt <> CANCELLED ->
  exists conflicts,
    postAppointment newId' value w' = (Post409 conflicts, w') /\ In apt conflicts.
Proof.
  intros Hok Hpost Hs.
  pose proof (postAppointment_tableOk _ _ _ _ _ Hpost Hok) as [_ Hl'].
  apply postAppointment_created_inv in Hpost as (Hv & _ & _ & Hapt & Happ).
  pose proof (appointmentSchema_duration _ Hv) as Hd.
  destruct (validDuration_minutes _ Hd) as (m & Hm & Hmb).
  assert (Hin : In apt (overlappingAppointments (b_providerId value) (b_date value)
                          (b_duration value) (appointments w'))).
  { apply overlappingAppointments_In. rewrite Happ.
    split; [apply in_app_iff; right; now left |].
    subst apt. split; [reflexivity |]. split; [exact Hs |].
    unfold overlapsRequest, overlap, minutesOf. cbn [createdFrom date duration].
    rewrite Hm. cbn [default from_option Datatypes.id]. unfold MINUTE. lia. }
  rewrite <- windowed_conflicts_overlapping in Hin by assumption.
  exists (List.filter (requestConflict (b_date value) (b_duration value))
            (windowedCandidates (b_providerId value) (b_date value) (appointments w'))).
  split; [| exact Hin].
  unfold postAppointment. rewrite Hv. cbn [negb].
  change (conflictsWith (Some (b_date value))
            (addScaled (Some (b_date value)) (durationMinutesOf (b_duration value)) MINUTE))
    with (requestConflict (b_date value) (b_duration value)).
  assert (He : existsb (requestConflict (b_date value) (b_duration value))
                 (windowedCandidates (b_providerId value) (b_date value) (appointments w'))
               = true) by (apply existsb_filter_nonempty; eauto).
  rewrite He. reflexivity.
Qed.

Lemma second_booking_refused_witness :
  tableOk (appointments (worldOf [tenOClock])) /\
  postAppointment "apt-11" elevenOClock (worldOf [tenOClock]) =
    (Post201 (createdFrom "apt-11" elevenOClock),
     snd (postAppointment "apt-11" elevenOClock (worldOf [tenOClock]))) /\
  status (createdFrom "apt-11" elevenOClock) <> CANCELLED /\
  exists conflicts,
    postAppointment "apt-12" elevenOClock
      (snd (postAppointment "apt-11" elevenOClock (worldOf [tenOClock]))) =
      (Post409 conflicts,
       snd (postAppointment "apt-11" elevenOClock (worldOf [tenOClock]))) /\
    In (createdFrom "apt-11" elevenOClock) conflicts.
Proof.
  assert (Hok : tableOk (appointments (worldOf [tenOClock]))).
  { split; [repeat constructor; cbn; tauto | intros a [<- | []]; reflexivity]. }
  assert (Hs : status (createdFrom "apt-11" elevenOClock) <> CANCELLED) by discriminate.
  split; [exact Hok | split; [reflexivity | split; [exact Hs |]]].
  exact (second_booking_refused "apt-11" "apt-12" elevenOClock (worldOf [tenOClock]) _ _
           Hok eq_refl Hs).
Defined.

(** ** Requests that are refused, and what any request leaves alone *)

(** X3.  A request that is not answered with success writes nothing: for
    the create, update, status, bulk and delete routes, any answer other
    than 201 or 200 comes with the state exactly as it was. *)
Theorem refused_requests_write_nothing :
  (forall newId value w,
     (forall a, fst (postAppointment newId value w) <> Post201 a) ->
     snd (postAppointment newId value w) = w) /\
  (forall i value w,
     (forall a, fst (putAppointment i value w) <> Put200 a) ->
     snd (putAppointment i value w) = w) /\
  (forall i s w,
     (forall a, fst (patchStatus i s w) <> Patch200 a) ->
     snd (patchStatus i s w) = w) /\
  (forall body w,
     (forall n, fst (postBulk body w) <> Bulk200 n) ->
     snd (postBulk body w) = w) /\
  (forall i w,
     fst (deleteAppointment i w) <> Delete200 ->
     snd (deleteAppointment i w) = w).
Proof.
  repeat split.
  - intros newId value w. unfold postAppointment.
    destruct (negb (appointmentSchema value)); [reflexivity |].
    destruct (existsb _ _); [reflexivity |].
    destruct (create newId value (appointments w)) as [apt |]; [| reflexivity].
    intros H. exfalso. exact (H apt eq_refl).
  - intros i value w. unfold putAppointment.
    destruct (negb (updateAppointmentSchema value)); [reflexivity |].
    destruct (findUnique i (appointments w)) as [ex |]; [| reflexivity].
    destruct (updateHasConflict i value ex (appointments w)); [reflexivity |].
    intros H. exfalso. exact (H _ eq_refl).
  - intros i s w. unfold patchStatus. destruct s as [s |]; [| reflexivity].
    destruct (findUnique i (appointments w)) as [ex |]; [| reflexivity].
    intros H. exfalso. exact (H _ eq_refl).
  - intros body w. unfold postBulk.
    destruct (bk_action body) as [act |]; [| reflexivity].
    destruct (bk_appointmentIds body) as [ids |]; [| reflexivity].
    destruct (String.eqb act ""); [reflexivity |].
    destruct (String.eqb act "delete").
    { intros H. exfalso. exact (H _ eq_refl). }
    destruct (String.eqb act "update-status"); [| reflexivity].
    destruct (bk_status body) as [s |]; [| reflexivity].
    intros H. exfalso. exact (H _ eq_refl).
  - intros i w. unfold deleteAppointment.
    destruct (findUnique i (appointments w)); [| reflexivity].
    intros H. exfalso. exact (H eq_refl).
Qed.

Lemma deleteAppointment_tableOk (i : string) (w w' : World) (r : DeleteResult) :
  deleteAppointment i w = (r, w') ->
  tableOk (appointments w) -> tableOk (appointments w').
Proof.
  unfold deleteAppointment.
  destruct (findUnique i (appointments w)) as [ex |]; [| now intros [= _ <-]].
  intros [= _ <-] Hok. cbn [emit createAuditLog setAppointments appointments].
  now apply tableOk_filter.
Qed.

Lemma handle_tableOk (w : World) (r : Request) :
  tableOk (appointments w) -> tableOk (appointments (handle w r)).
Proof.
  destruct r as [newId value | i value | i s | body | i]; cbn [handle].
  - apply (postAppointment_tableOk newId value w _ (fst (postAppointment newId value w))).
    now destruct (postAppointment newId value w).
  - apply (putAppointment_tableOk i value w _ (fst (putAppointment i value w))).
    now destruct (putAppointment i value w).
  - apply (patchStatus_tableOk i s w _ (fst (patchStatus i s w))).
    now destruct (patchStatus i s w).
  - apply (postBulk_tableOk body w _ (fst (postBulk body w))).
    now destruct (postBulk body w).
  - apply (deleteAppointment_tableOk i w _ (fst (deleteAppointment i w))).
    now destruct (deleteAppointment i w).
Qed.

(** X4.  Whatever requests are served, in whatever order, a table with
    unique ids and validated durations stays one: no sequence of create,
    update, status, bulk and delete requests produces a duplicate key or
    stores a duration outside the five accepted texts. *)
Theorem serve_keeps_tableOk (rs : list Request) (w : World) :
  tableOk (appointments w) -> tableOk (appointments (serve rs w)).
Proof.
  unfold serve. revert w. induction rs as [| r rs IH]; intros w Hok; cbn [fold_left].
  - exact Hok.
  - apply IH. now apply handle_tableOk.
Qed.

Lemma serve_keeps_tableOk_witness :
  tableOk (appointments (worldOf [])) /\
  tableOk (appointments (serve sampleSession (worldOf []))).
Proof.
  assert (Hok : tableOk (appointments (worldOf []))).
  { split; [constructor | intros a []]. }
  split; [exact Hok |].
  exact (serve_keeps_tableOk sampleSession (worldOf []) Hok).
Defined.

Lemma handle_appends (w : World) (r : Request) :
  exists moreAudit moreEmitted,
    auditLog (handle w r) = (auditLog w ++ moreAudit)%list /\
    emitted (handle w r) = (emitted w ++ moreEmitted)%list /\
    locations (handle w r) = locations w.
Proof.
  assert (Hsame : exists moreAudit moreEmitted,
            auditLog w = (auditLog w ++ moreAudit)%list /\
            emitted w = (emitted w ++ moreEmitted)%list /\
            locations w = locations w).
  { exists [], []. now rewrite !app_nil_r. }
  destruct r as [newId value | i value | i s | body | i]; cbn [handle].
  - unfold postAppointment.
    destruct (negb (appointmentSchema value)); [exact Hsame |].
    destruct (existsb _ _); [exact Hsame |].
    destruct (create newId value (appointments w)); [| exact Hsame].
    cbn. eexists [_], [_]. repeat split.
  - unfold putAppointment.
    destruct (negb (updateAppointmentSchema value)); [exact Hsame |].
    destruct (findUnique i (appointments w)) as [ex |]; [| exact Hsame].
    destruct (updateHasConflict i value ex (appointments w)); [exact Hsame |].
    cbn. eexists [_], [_]. repeat split.
  - unfold patchStatus. destruct s as [s |]; [| exact Hsame].
    destruct (findUnique i (appointments w)) as [ex |]; [| exact Hsame].
    cbn. eexists [_], [_]. repeat split.
  - unfold postBulk.
    destruct (bk_action body) as [act |]; [| exact Hsame].
    destruct (bk_appointmentIds body) as [ids |]; [| exact Hsame].
    destruct (String.eqb act ""); [exact Hsame |].
    destruct (String.eqb act "delete").
    { cbn. eexists [_], [_]. repeat split. }
    destruct (String.eqb act "update-status"); [| exact Hsame].
    destruct (bk_status body) as [s |]; [| exact Hsame].
    cbn. eexists [_], [_]. repeat split.
  - unfold deleteAppointment.
    destruct (findUnique i (appointments w)) as [ex |]; [| exact Hsame].
    cbn. eexists [_], [_]. repeat split.
Qed.

(** X5.  The writing routes only ever add to the audit log and to the
    notifications sent, and never touch the location table: after any
    sequence of requests the earlier audit entries and notifications are
    still there, in order, in front of the new ones. *)
Theorem serve_only_appends (rs : list Request) (w : World) :
  exists moreAudit moreEmitted,
    auditLog (serve rs w) = (auditLog w ++ moreAudit)%list /\
    emitted (serve rs w) = (emitted w ++ moreEmitted)%list /\
    locations (serve rs w) = locations w.
Proof.
  unfold serve. revert w. induction rs as [| r rs IH]; intros w; cbn [fold_left].
  - exists [], []. now rewrite !app_nil_r.
  - destruct (IH (handle w r)) as (a2 & e2 & Ha2 & He2 & Hl2).
    destruct (handle_appends w r) as (a1 & e1 & Ha1 & He1 & Hl1).
    exists (a1 ++ a2)%list, (e1 ++ e2)%list.
    rewrite Ha2, He2, Hl2, Ha1, He1, Hl1, !app_assoc. auto.
Qed.

(** ** The conflicts report *)

Lemma insertByDate_sorted (a : Appointment) (l : list Appointment) :
  sortedByDate l -> sortedByDate (insertByDate a l).
Proof.
  induction l as [| b l IH]; cbn [insertByDate]; [cbn; auto |].
  intros Hs. destruct (Z.leb_spec (date a) (date b)) as [Hle | Hgt].
  - cbn [sortedByDate]. auto.
  - destruct l as [| c l].
    + cbn. split; [lia | exact I].
    + cbn [sortedByDate] in Hs. destruct Hs as [Hbc Hs].
      specialize (IH Hs). cbn [insertByDate] in *.
      destruct (date a <=? date c); cbn [sortedByDate] in *; split; try lia; tauto.
Qed.

Lemma orderByDateAsc_sorted (l : list Appointment) : sortedByDate (orderByDateAsc l).
Proof.
  induction l as [| a l IH]; cbn [orderByDateAsc fold_right]; [exact I |].
  fold (orderByDateAsc l). now apply insertByDate_sorted.
Qed.

Lemma sortedByDate_tail (a : Appointment) (l : list Appointment) :
  sortedByDate (a :: l) -> sortedByDate l.
Proof. destruct l; cbn; tauto. Qed.

Lemma sortedByDate_head (a : Appointment) (l : list Appointment) :
  sortedByDate (a :: l) -> forall x, In x l -> date a <= date x.
Proof.
  revert a. induction l as [| b l IH]; intros a Hs x Hx; [destruct Hx |].
  cbn [sortedByDate] in Hs. destruct Hs as [Hab Hs].
  destruct Hx as [<- | Hx]; [exact Hab |].
  pose proof (IH b Hs x Hx). lia.
Qed.

Lemma NoDup_map_id_insertByDate (a : Appointment) (l : list Appointment) :
  List.NoDup (map id (a :: l)) -> List.NoDup (map id (insertByDate a l)).
Proof.
  induction l as [| b l IH]; cbn [insertByDate]; [auto |].
  destruct (date a <=? date b); [auto |].
  cbn [map]. intros Hnd.
  apply NoDup_cons_iff in Hnd as [Ha Hnd].
  apply NoDup_cons_iff in Hnd as [Hb Hnd].
  apply NoDup_cons_iff. split.
  - intros Hin. apply in_map_iff in Hin as (x & Hx & Hin).
    apply insertByDate_In in Hin as [-> | Hin].
    + apply Ha. left. now symmetry.
    + apply Hb. apply in_map_iff. eauto.
  - apply IH. cbn [map]. apply NoDup_cons_iff. split; [| exact Hnd].
    intros Hin. apply Ha. now right.
Qed.

Lemma NoDup_map_id_orderByDateAsc (l : list Appointment) :
  List.NoDup (map id l) -> List.NoDup (map id (orderByDateAsc l)).
Proof.
  induction l as [| a l IH]; [auto |].
  intros Hnd. cbn [map] in Hnd. apply NoDup_cons_iff in Hnd as [Ha Hnd].
  cbn [orderByDateAsc fold_right]. fold (orderByDateAsc l).
  apply NoDup_map_id_insertByDate. cbn [map]. apply NoDup_cons_iff.
  split; [| exact (IH Hnd)].
  intros Hin. apply Ha. apply in_map_iff in Hin as (x & Hx & Hin).
  apply (proj1 (orderByDateAsc_In x l)) in Hin. apply in_map_iff. eauto.
Qed.

Lemma date_gt_end (a b : Appointment) :
  date_gt (aptEndOf a) (aptStartOf b) = true -> date b < endOf a.
Proof.
  unfold aptEndOf, aptStartOf, endOf, minutesOf.
  destruct (durationMinutesOf (duration a)) as [m |]; cbn; [| discriminate].
  apply Z.ltb_lt.
Qed.

Lemma date_gt_end_false (a b : Appointment) :
  date a <= date b ->
  date_gt (aptEndOf a) (aptStartOf b) = false -> endOf a <= date b.
Proof.
  unfold aptEndOf, aptStartOf, endOf, minutesOf.
  destruct (durationMinutesOf (duration a)) as [m |]; cbn; [| lia].
  intros _. apply Z.ltb_ge.
Qed.

(** What the loop over neighbours tells of a pair it reports. *)
Lemma adjacentConflicts_sound (l : list Appointment) :
  sortedByDate l -> List.NoDup (map id l) ->
  forall pr, In pr (adjacentConflicts l) ->
    In (appointment1 pr) l /\ In (appointment2 pr) l /\
    id (appointment1 pr) <> id (appointment2 pr) /\
    date (appointment1 pr) <= date (appointment2 pr) /\
    date (appointment2 pr) < endOf (appointment1 pr) /\
    overlapMinutes pr =
      roundMinutes (endOf (appointment1 pr) - date (appointment2 pr)).
Proof.
  induction l as [| x l IH]; [intros _ _ pr [] |].
  destruct l as [| y l]; [intros _ _ pr [] |].
  intros Hs Hnd pr Hin. cbn [adjacentConflicts] in Hin.
  apply in_app_iff in Hin as [Hin | Hin].
  - destruct (date_gt (aptEndOf x) (aptStartOf y)) eqn:Hgt; [| destruct Hin].
    destruct Hin as [<- | []]. cbn [appointment1 appointment2 overlapMinutes].
    cbn [sortedByDate] in Hs. cbn [map] in Hnd.
    apply NoDup_cons_iff in Hnd as [Hx _].
    pose proof (date_gt_end _ _ Hgt) as Hend.
    repeat split; cbn [In]; auto.
    + intros E. apply Hx. left. now symmetry.
    + tauto.
    + f_equal. f_equal. unfold aptEndOf, aptStartOf, endOf, minutesOf in *.
      destruct (durationMinutesOf (duration x)); cbn in *; [reflexivity | discriminate].
  - cbn [map] in Hnd. apply NoDup_cons_iff in Hnd as [_ Hnd].
    destruct (IH (sortedByDate_tail _ _ Hs) Hnd pr Hin) as (H1 & H2 & H3).
    split; [now right | split; [now right | exact H3]].
Qed.

(** With nothing reported, no two different rows of a sorted list overlap. *)
Lemma adjacentConflicts_nil_free (l : list Appointment) :
  sortedByDate l -> adjacentConflicts l = [] ->
  forall a b, In a l -> In b l -> a <> b -> ~ appointmentsOverlap a b.
Proof.
  induction l as [| x l IH]; [intros _ _ a b [] |].
  intros Hs Hnil.
  assert (Hafter : forall z, In z l -> endOf x <= date z).
  { destruct l as [| y l]; [intros z [] |].
    cbn [adjacentConflicts] in Hnil. apply app_eq_nil in Hnil as [Hpair _].
    destruct (date_gt (aptEndOf x) (aptStartOf y)) eqn:Hgt; [discriminate |].
    apply date_gt_end_false in Hgt; [| exact (proj1 Hs)].
    intros z Hz. pose proof (sortedByDate_tail _ _ Hs) as Hs'.
    destruct Hz as [<- | Hz]; [exact Hgt |].
    pose proof (sortedByDate_head _ _ Hs' z Hz). lia. }
  assert (Hrest : adjacentConflicts l = []).
  { destruct l as [| y l]; [reflexivity |].
    cbn [adjacentConflicts] in Hnil. now apply app_eq_nil in Hnil as [_ Hrest]. }
  intros a b [<- | Ha] [<- | Hb] Hne.
  - congruence.
  - intros [_ Ho]. pose proof (Hafter b Hb). lia.
  - intros [Ho _]. pose proof (Hafter a Ha). lia.
  - exact (IH (sortedByDate_tail _ _ Hs) Hrest a b Ha Hb Hne).
Qed.

Lemma getConflicts_inv (q : ConflictsQuery) (w : World) (p : string)
  (n c : Z) (conflicts : list ConflictPair) :
  cq_providerId q = Some p ->
  getConflicts q w = Conflicts200 n conflicts c ->
  conflicts = adjacentConflicts (orderByDateAsc (reportRows p q (appointments w))) /\
  c = Z.of_nat (List.length conflicts) /\
  n = Z.of_nat (List.length (reportRows p q (appointments w))).
Proof.
  intros Hp. unfold getConflicts. rewrite Hp. intros [= <- <- <-].
  rewrite orderByDateAsc_length. auto.
Qed.

Lemma reportRows_NoDup (p : string) (q : ConflictsQuery) (l : list Appointment) :
  tableOk l -> List.NoDup (map id (orderByDateAsc (reportRows p q l))).
Proof.
  intros [Hnd _]. apply NoDup_map_id_orderByDateAsc.
  now apply NoDup_map_id_filter.
Qed.

(** X9.  Every pair the conflicts report lists is a real conflict: its two
    appointments are different rows read for the provider, the first
    starts no later than the second, their intervals overlap, and the
    reported minutes are the rounded time between the second one's start
    and the first one's end. *)
Theorem reported_pairs_overlap (q : ConflictsQuery) (w : World) (p : string)
  (n c : Z) (conflicts : list ConflictPair) (pr : ConflictPair) :
  tableOk (appointments w) ->
  cq_providerId q = Some p ->
  getConflicts q w = Conflicts200 n conflicts c ->
  In pr conflicts ->
  In (appointment1 pr) (reportRows p q (appointments w)) /\
  In (appointment2 pr) (reportRows p q (appointments w)) /\
  id (appointment1 pr) <> id (appointment2 pr) /\
  date (appointment1 pr) <= date (appointment2 pr) /\
  appointmentsOverlap (appointment1 pr) (appointment2 pr) /\
  overlapMinutes pr = roundMinutes (endOf (appointment1 pr) - date (appointment2 pr)).
Proof.
  intros Hok Hp Hget Hin.
  destruct (getConflicts_inv q w p n c conflicts Hp Hget) as (-> & _ & _).
  destruct (adjacentConflicts_sound _ (orderByDateAsc_sorted _)
              (reportRows_NoDup p q _ Hok) pr Hin)
    as (H1 & H2 & Hne & Hle & Hlt & Hmin).
  apply (proj1 (orderByDateAsc_In _ _)) in H1.
  apply (proj1 (orderByDateAsc_In _ _)) in H2.
  repeat split; auto.
  - assert (Hv : validDuration (duration (appointment2 pr)) = true).
    { destruct Hok as [_ Hd]. apply Hd.
      unfold reportRows in H2. apply filter_In in H2. tauto. }
    destruct (validDuration_minutes _ Hv) as (m & Hm & Hmb).
    unfold endOf, minutesOf. rewrite Hm. cbn [default from_option Datatypes.id].
    unfold MINUTE. lia.
Qed.

Lemma reported_pairs_overlap_witness :
  tableOk (appointments nestedThree) /\
  cq_providerId askAllOfX = Some "prov-X" /\
  getConflicts askAllOfX nestedThree =
    Conflicts200 3 [mkPair longTen shortQuarterPast 75] 1 /\
  In (mkPair longTen shortQuarterPast 75) [mkPair longTen shortQuarterPast 75] /\
  In longTen (reportRows "prov-X" askAllOfX (appointments nestedThree)) /\
  In shortQuarterPast (reportRows "prov-X" askAllOfX (appointments nestedThree)) /\
  id longTen <> id shortQuarterPast /\
  date longTen <= date shortQuarterPast /\
  appointmentsOverlap longTen shortQuarterPast /\
  75 = roundMinutes (endOf longTen - date shortQuarterPast).
Proof.
  assert (Hok : tableOk (appointments nestedThree)).
  { split.
    - cbn. repeat constructor; cbn; intuition discriminate.
    - intros a [<- | [<- | [<- | []]]]; reflexivity. }
  assert (Hin : In (mkPair longTen shortQuarterPast 75)
                  [mkPair longTen shortQuarterPast 75]) by now left.
  split; [exact Hok | split; [reflexivity | split; [reflexivity | split; [exact Hin |]]]].
  exact (reported_pairs_overlap askAllOfX nestedThree "prov-X" 3 1
           [mkPair longTen shortQuarterPast 75] (mkPair longTen shortQuarterPast 75)
           Hok eq_refl eq_refl Hin).
Defined.

(** X10.  The conflict count is a sound alarm: on a well formed table the
    report counts zero conflicts exactly when no two different
    appointments among the rows read for the provider overlap. *)
Theorem empty_report_iff_free (q : ConflictsQuery) (w : World) (p : string)
  (n c : Z) (conflicts : list ConflictPair) :
  tableOk (appointments w) ->
  cq_providerId q = Some p ->
  getConflicts q w = Conflicts200 n conflicts c ->
  c = 0 <->
  (forall a b,
     In a (reportRows p q (appointments w)) ->
     In b (reportRows p q (appointments w)) ->
     id a <> id b -> ~ appointmentsOverlap a b).
Proof.
  intros Hok Hp Hget.
  destruct (getConflicts_inv q w p n c conflicts Hp Hget) as (Hc & -> & _).
  set (rows := orderByDateAsc (reportRows p q (appointments w))) in *.
  split.
  - intros Hzero a b Ha Hb Hne.
    assert (Hnil : adjacentConflicts rows = []).
    { rewrite <- Hc. destruct conflicts; [reflexivity | cbn in Hzero; lia]. }
    apply (adjacentConflicts_nil_free rows (orderByDateAsc_sorted _) Hnil);
      [exact (proj2 (orderByDateAsc_In _ _) Ha)
      | exact (proj2 (orderByDateAsc_In _ _) Hb) | congruence].
  - intros Hfree. destruct conflicts as [| pr rest]; [reflexivity | exfalso].
    assert (Hin : In pr (adjacentConflicts rows)) by (rewrite <- Hc; now left).
    destruct (adjacentConflicts_sound rows (orderByDateAsc_sorted _)
                (reportRows_NoDup p q _ Hok) pr Hin)
      as (H1 & H2 & Hne & Hle & Hlt & _).
    apply (proj1 (orderByDateAsc_In _ _)) in H1.
  apply (proj1 (orderByDateAsc_In _ _)) in H2.
    apply (Hfree _ _ H1 H2 Hne). split; [| exact Hlt].
    assert (Hv : validDuration (duration (appointment2 pr)) = true).
    { destruct Hok as [_ Hd]. apply Hd.
      unfold reportRows in H2. apply filter_In in H2. tauto. }
    destruct (validDuration_minutes _ Hv) as (m & Hm & Hmb).
    unfold endOf, minutesOf. rewrite Hm. cbn [default from_option Datatypes.id].
    unfold MINUTE. lia.
Qed.

Lemma empty_report_iff_free_witness :
  tableOk (appointments tenThenEleven) /\
  cq_providerId askAllOfX = Some "prov-X" /\
  getConflicts askAllOfX tenThenEleven = Conflicts200 2 [] 0 /\
  (0 = 0 <->
   (forall a b,
      In a (reportRows "prov-X" askAllOfX (appointments tenThenEleven)) ->
      In b (reportRows "prov-X" askAllOfX (appointments tenThenEleven)) ->
      id a <> id b -> ~ appointmentsOverlap a b)).
Proof.
  assert (Hok : tableOk (appointments tenThenEleven)).
  { split.
    - cbn. repeat constructor; cbn; intuition discriminate.
    - intros a [<- | [<- | []]]; reflexivity. }
  split; [exact Hok | split; [reflexivity | split; [reflexivity |]]].
  exact (empty_report_iff_free askAllOfX tenThenEleven "prov-X" 2 0 [] Hok eq_refl eq_refl).
Defined.

(** ** Reading back after delete, bulk and update *)

Lemma findUnique_filter_by_id (g : string -> bool) (j : string) (l : list Appointment) :
  findUnique j (List.filter (fun a => g (id a)) l) =
  if g j then findUnique j l else None.
Proof.
  unfold findUnique. induction l as [| a l IH]; cbn [List.filter find].
  - now destruct (g j).
  - destruct (g (id a)) eqn:Hg; cbn [find].
    + destruct (String.eqb (id a) j) eqn:E; [| exact IH].
      apply String.eqb_eq in E. rewrite <- E, Hg. reflexivity.
    + rewrite IH. destruct (String.eqb (id a) j) eqn:E; [| reflexivity].
      apply String.eqb_eq in E. rewrite <- E, Hg. reflexivity.
Qed.

Lemma findUnique_map_by_id (g : string -> bool) (f : Appointment -> Appointment)
  (j : string) (l : list Appointment) :
  (forall a, id (f a) = id a) ->
  findUnique j (map (fun a => if g (id a) then f a else a) l) =
  if g j then option_map f (findUnique j l) else findUnique j l.
Proof.
  intros Hf. unfold findUnique. induction l as [| a l IH]; cbn [map find option_map].
  - now destruct (g j).
  - assert (Hid : id (if g (id a) then f a else a) = id a)
      by (destruct (g (id a)); [apply Hf | reflexivity]).
    rewrite Hid. destruct (String.eqb (id a) j) eqn:E; [| exact IH].
    apply String.eqb_eq in E. subst j. now destruct (g (id a)).
Qed.

Lemma named_true (ids : list string) (j : string) : named ids j = true <-> In j ids.
Proof.
  unfold named. rewrite existsb_exists. split.
  - intros (x & Hx & E). apply String.eqb_eq in E. now subst.
  - intros H. exists j. split; [exact H | apply String.eqb_refl].
Qed.

Lemma findUnique_deleteWhereId (i j : string) (l : list Appointment) :
  findUnique j (deleteWhereId i l) =
  if String.eqb j i then None else findUnique j l.
Proof.
  unfold deleteWhereId.
  rewrite (findUnique_filter_by_id (fun k => negb (String.eqb k i))).
  now destruct (String.eqb j i).
Qed.

(** X11.  Deleting an existing appointment is answered 200; afterwards the
    id is unknown, every other id reads as before, and a second delete of
    the same id is answered 404 and changes nothing. *)
Theorem delete_removes_row (i : string) (a : Appointment) (w : World) :
  findUnique i (appointments w) = Some a ->
  exists w',
    deleteAppointment i w = (Delete200, w') /\
    findUnique i (appointments w') = None /\
    (forall j, j <> i ->
       findUnique j (appointments w') = findUnique j (appointments w)) /\
    deleteAppointment i w' = (Delete404, w').
Proof.
  intros Hfind. unfold deleteAppointment at 1. rewrite Hfind.
  eexists. split; [reflexivity |].
  cbn [emit createAuditLog setAppointments appointments].
  assert (Hgone : findUnique i (deleteWhereId i (appointments w)) = None)
    by (rewrite findUnique_deleteWhereId, String.eqb_refl; reflexivity).
  split; [exact Hgone | split].
  - intros j Hj. rewrite findUnique_deleteWhereId.
    apply String.eqb_neq in Hj. now rewrite Hj.
  - unfold deleteAppointment. cbn [emit createAuditLog setAppointments appointments].
    rewrite Hgone. reflexivity.
Qed.

Lemma delete_removes_row_witness :
  findUnique "a2" (appointments (worldOf threeStored)) =
    Some (sampleApt "a2" "prov-X" "loc-1" (clock 10 0) "30 minutes" CONFIRMED) /\
  exists w',
    deleteAppointment "a2" (worldOf threeStored) = (Delete200, w') /\
    findUnique "a2" (appointments w') = None /\
    (forall j, j <> "a2" ->
       findUnique j (appointments w') = findUnique j (appointments (worldOf threeStored))) /\
    deleteAppointment "a2" w' = (Delete404, w').
Proof.
  split; [reflexivity |].
  exact (delete_removes_row "a2" _ (worldOf threeStored) eq_refl).
Defined.

Lemma findUnique_app (j : string) (l1 l2 : list Appointment) :
  findUnique j (l1 ++ l2) =
  match findUnique j l1 with Some a => Some a | None => findUnique j l2 end.
Proof.
  unfold findUnique. induction l1 as [| a l1 IH]; cbn [app find]; [reflexivity |].
  now destruct (String.eqb (id a) j).
Qed.

Lemma filter_all_true {A} (f : A -> bool) (l : list A) :
  (forall a, In a l -> f a = true) -> List.filter f l = l.
Proof.
  induction l as [| a l IH]; intros H; [reflexivity |].
  cbn [List.filter]. rewrite (H a (or_introl eq_refl)).
  f_equal. apply IH. intros x Hx. apply H. now right.
Qed.

(** X12.  Deleting an appointment right after its creation undoes the
    creation: the delete is answered 200 and the appointment table is
    again the table from before the create request. *)
Theorem create_then_delete (newId : string) (value : AppointmentBody)
  (w w1 : World) (apt : Appointment) :
  postAppointment newId value w = (Post201 apt, w1) ->
  exists w2,
    deleteAppointment newId w1 = (Delete200, w2) /\
    appointments w2 = appointments w.
Proof.
  intros Hpost.
  apply postAppointment_created_inv in Hpost as (_ & Hfresh & _ & -> & Happ).
  pose proof (findUnique_None _ _ Hfresh) as Hnotin.
  assert (Hfind : findUnique newId (appointments w1) = Some (createdFrom newId value)).
  { rewrite Happ, findUnique_app, Hfresh. unfold findUnique.
    cbn [find createdFrom id]. now rewrite String.eqb_refl. }
  unfold deleteAppointment. rewrite Hfind. eexists. split; [reflexivity |].
  cbn [emit createAuditLog setAppointments appointments].
  rewrite Happ. unfold deleteWhereId. rewrite filter_app.
  cbn [List.filter createdFrom id]. rewrite String.eqb_refl. cbn [negb].
  rewrite app_nil_r. apply filter_all_true.
  intros a Ha. apply negb_true_iff, String.eqb_neq.
  intros E. apply Hnotin. apply in_map_iff. eauto.
Qed.

Lemma create_then_delete_witness :
  postAppointment "apt-11" elevenOClock (worldOf [tenOClock]) =
    (Post201 (createdFrom "apt-11" elevenOClock),
     snd (postAppointment "apt-11" elevenOClock (worldOf [tenOClock]))) /\
  exists w2,
    deleteAppointment "apt-11"
      (snd (postAppointment "apt-11" elevenOClock (worldOf [tenOClock]))) =
      (Delete200, w2) /\
    appointments w2 = appointments (worldOf [tenOClock]).
Proof.
  split; [reflexivity |].
  exact (create_then_delete "apt-11" elevenOClock (worldOf [tenOClock]) _ _ eq_refl).
Defined.

Lemma filter_none {A} (f : A -> bool) (l : list A) :
  (forall a, In a l -> f a = false) -> List.filter f l = [].
Proof.
  induction l as [| a l IH]; intros H; [reflexivity |].
  cbn [List.filter]. rewrite (H a (or_introl eq_refl)).
  apply IH. intros x Hx. apply H. now right.
Qed.

(** X13.  A bulk delete removes exactly the rows it names: afterwards
    every id of the request is unknown, every other id reads as before,
    and sending the same bulk delete again affects zero rows. *)
Theorem bulk_delete_effect (body : BulkBody) (ids : list string) (w : World) :
  bk_action body = Some "delete" ->
  bk_appointmentIds body = Some ids ->
  exists n w',
    postBulk body w = (Bulk200 n, w') /\
    (forall j, In j ids -> findUnique j (appointments w') = None) /\
    (forall j, ~ In j ids ->
       findUnique j (appointments w') = findUnique j (appointments w)) /\
    exists w'', postBulk body w' = (Bulk200 0, w'').
Proof.
  intros Ha Hi. unfold postBulk. rewrite Ha, Hi.
  cbn [String.eqb Ascii.eqb Bool.eqb]. unfold bulkFinish, deleteMany. cbn [fst snd].
  eexists _, _. split; [reflexivity |].
  cbn [emit createAuditLog setAppointments appointments].
  assert (Hread : forall j,
            findUnique j (List.filter (fun apt => negb (idIn ids apt)) (appointments w)) =
            if negb (named ids j) then findUnique j (appointments w) else None).
  { intros j. exact (findUnique_filter_by_id (fun k => negb (named ids k)) j _). }
  split; [| split].
  - intros j Hj. rewrite Hread. apply named_true in Hj. now rewrite Hj.
  - intros j Hj. rewrite Hread. destruct (named ids j) eqn:E; [| reflexivity].
    apply named_true in E. contradiction.
  - eexists. rewrite filter_filter_and.
    rewrite (filter_none (fun a => negb (idIn ids a) && idIn ids a)); [reflexivity |].
    intros a _. now destruct (idIn ids a).
Qed.

Lemma bulk_delete_effect_witness :
  bk_action deleteFive = Some "delete" /\
  bk_appointmentIds deleteFive = Some ["a1"; "gone-1"; "a2"; "gone-2"; "a3"] /\
  exists n w',
    postBulk deleteFive (worldOf threeStored) = (Bulk200 n, w') /\
    (forall j, In j ["a1"; "gone-1"; "a2"; "gone-2"; "a3"] ->
       findUnique j (appointments w') = None) /\
    (forall j, ~ In j ["a1"; "gone-1"; "a2"; "gone-2"; "a3"] ->
       findUnique j (appointments w') = findUnique j (appointments (worldOf threeStored))) /\
    exists w'', postBulk deleteFive w' = (Bulk200 0, w'').
Proof.
  split; [reflexivity | split; [reflexivity |]].
  exact (bulk_delete_effect deleteFive _ (worldOf threeStored) eq_refl eq_refl).
Defined.

(** X14.  A bulk status update sets the status of exactly the rows it
    names and changes nothing else: a named id that exists reads back as
    the same appointment with the new status, every other id reads as
    before, and the table keeps its length. *)
Theorem bulk_status_effect (body : BulkBody) (ids : list string) (s : Status)
  (w : World) :
  bk_action body = Some "update-status" ->
  bk_appointmentIds body = Some ids ->
  bk_status body = Some s ->
  exists n w',
    postBulk body w = (Bulk200 n, w') /\
    (forall j, In j ids ->
       findUnique j (appointments w') =
       option_map (setStatus s) (findUnique j (appointments w))) /\
    (forall j, ~ In j ids ->
       findUnique j (appointments w') = findUnique j (appointments w)) /\
    List.length (appointments w') = List.length (appointments w).
Proof.
  intros Ha Hi Hs. unfold postBulk. rewrite Ha, Hi, Hs.
  cbn [String.eqb Ascii.eqb Bool.eqb]. unfold bulkFinish, updateMany. cbn [fst snd].
  eexists _, _. split; [reflexivity |].
  cbn [emit createAuditLog setAppointments appointments].
  assert (Hread : forall j,
            findUnique j (map (fun apt => if idIn ids apt then setStatus s apt else apt)
                            (appointments w)) =
            if named ids j then option_map (setStatus s) (findUnique j (appointments w))
            else findUnique j (appointments w)).
  { intros j. apply (findUnique_map_by_id (named ids) (setStatus s)). reflexivity. }
  split; [| split].
  - intros j Hj. rewrite Hread. apply named_true in Hj. now rewrite Hj.
  - intros j Hj. rewrite Hread. destruct (named ids j) eqn:E; [| reflexivity].
    apply named_true in E. contradiction.
  - apply length_map.
Qed.

Lemma bulk_status_effect_witness :
  bk_action cancelTwo = Some "update-status" /\
  bk_appointmentIds cancelTwo = Some ["a1"; "gone-1"; "a3"] /\
  bk_status cancelTwo = Some CANCELLED /\
  exists n w',
    postBulk cancelTwo (worldOf threeStored) = (Bulk200 n, w') /\
    (forall j, In j ["a1"; "gone-1"; "a3"] ->
       findUnique j (appointments w') =
       option_map (setStatus CANCELLED)
         (findUnique j (appointments (worldOf threeStored)))) /\
    (forall j, ~ In j ["a1"; "gone-1"; "a3"] ->
       findUnique j (appointments w') = findUnique j (appointments (worldOf threeStored))) /\
    List.length (appointments w') = List.length (appointments (worldOf threeStored)).
Proof.
  split; [reflexivity | split; [reflexivity | split; [reflexivity |]]].
  exact (bulk_status_effect cancelTwo _ CANCELLED (worldOf threeStored)
           eq_refl eq_refl eq_refl).
Defined.

(** ** Clearing the way for a refused booking *)

Lemma postAppointment_conflict_inv (newId : string) (value : AppointmentBody)
  (w w' : World) (conflicts : list Appointment) :
  postAppointment newId value w = (Post409 conflicts, w') ->
  appointmentSchema value = true /\
  conflicts =
    List.filter (requestConflict (b_date value) (b_duration value))
      (windowedCandidates (b_providerId value) (b_date value) (appointments w)).
Proof.
  unfold postAppointment.
  destruct (appointmentSchema value) eqn:Hv; cbn [negb]; [| discriminate].
  destruct (existsb _ _).
  - intros [= <- _]. auto.
  - destruct (create newId value (appointments w)); discriminate.
Qed.

(** X15.  A refused booking goes through once its conflicts are cancelled:
    if a create request is answered 409, a bulk status update that sets
    the listed conflicting appointments to CANCELLED is accepted, and the
    same create request, with a fresh key, is then answered 201. *)
Theorem cancel_conflicts_then_book (newId : string) (value : AppointmentBody)
  (w w' : World) (conflicts : list Appointment) :
  postAppointment newId value w = (Post409 conflicts, w') ->
  findUnique newId (appointments w) = None ->
  exists n w1 apt w2,
    postBulk (mkBulk (Some "update-status") (Some (map id conflicts)) (Some CANCELLED)) w =
      (Bulk200 n, w1) /\
    postAppointment newId value w1 = (Post201 apt, w2).
Proof.
  intros Hpost Hfresh.
  apply postAppointment_conflict_inv in Hpost as (Hv & Hc).
  set (ids := map id conflicts).
  set (l1 := map (fun apt => if idIn ids apt then setStatus CANCELLED apt else apt)
               (appointments w)).
  exists (Z.of_nat (List.length (List.filter (idIn ids) (appointments w)))).
  eexists. exists (createdFrom newId value). eexists.
  split; [reflexivity |].
  cbn [snd bulkFinish updateMany].
  unfold postAppointment. rewrite Hv. cbn [negb].
  cbn [emit createAuditLog setAppointments appointments]. fold ids. fold l1.
  change (conflictsWith (Some (b_date value))
            (addScaled (Some (b_date value)) (durationMinutesOf (b_duration value)) MINUTE))
    with (requestConflict (b_date value) (b_duration value)).
  assert (Hnone : existsb (requestConflict (b_date value) (b_duration value))
                    (windowedCandidates (b_providerId value) (b_date value) l1) = false).
  { apply existsb_false_In. intros a' Ha'.
    unfold windowedCandidates in Ha'. apply filter_In in Ha' as [Hin Hpass].
    unfold l1 in Hin. apply in_map_iff in Hin as (a & <- & Hin).
    destruct (idIn ids a) eqn:Hnamed.
    - rewrite !andb_true_iff in Hpass. destruct Hpass as [[_ Hlive] _].
      discriminate Hlive.
    - destruct (requestConflict (b_date value) (b_duration value) a) eqn:Hconf;
        [exfalso | reflexivity].
      assert (Hlisted : In a conflicts).
      { rewrite Hc. apply filter_In. split; [| exact Hconf].
        unfold windowedCandidates. apply filter_In. auto. }
      assert (Ht : idIn ids a = true).
      { apply idIn_true. unfold ids. apply in_map_iff. eauto. }
      congruence. }
  rewrite Hnone.
  assert (Hfresh1 : findUnique newId l1 = None).
  { unfold l1.
    rewrite (findUnique_map_by_id (named ids) (setStatus CANCELLED)) by reflexivity.
    rewrite Hfresh. now destruct (named ids newId). }
  unfold create. rewrite Hfresh1. reflexivity.
Qed.

Lemma cancel_conflicts_then_book_witness :
  postAppointment "apt-new" quarterPastTen (worldOf [tenOClock]) =
    (Post409 [tenOClock], worldOf [tenOClock]) /\
  findUnique "apt-new" (appointments (worldOf [tenOClock])) = None /\
  exists n w1 apt w2,
    postBulk (mkBulk (Some "update-status") (Some (map id [tenOClock])) (Some CANCELLED))
      (worldOf [tenOClock]) = (Bulk200 n, w1) /\
    postAppointment "apt-new" quarterPastTen w1 = (Post201 apt, w2).
Proof.
  split; [reflexivity | split; [reflexivity |]].
  exact (cancel_conflicts_then_book "apt-new" quarterPastTen (worldOf [tenOClock]) _
           [tenOClock] eq_refl eq_refl).
Defined.

(** X16.  A successful update can be read back: the answer carries the
    id that was asked for, looking that id up afterwards gives the
    appointment of the answer, every other id reads as before, and the
    table keeps its length. *)
Theorem update_reads_back (i : string) (value : UpdateBody) (w w' : World)
  (a : Appointment) :
  putAppointment i value w = (Put200 a, w') ->
  id a = i /\
  findUnique i (appointments w') = Some a /\
  (forall j, j <> i ->
     findUnique j (appointments w') = findUnique j (appointments w)) /\
  List.length (appointments w') = List.length (appointments w).
Proof.
  unfold putAppointment.
  destruct (negb (updateAppointmentSchema value)); [discriminate |].
  destruct (findUnique i (appointments w)) as [ex |] eqn:Hfind; [| discriminate].
  destruct (updateHasConflict i value ex (appointments w)); [discriminate |].
  intros [= <- <-]. cbn [emit createAuditLog setAppointments appointments].
  split; [exact (proj2 (findUnique_Some _ _ _ Hfind)) | split; [| split]].
  - rewrite findUnique_updateWhereId by reflexivity.
    rewrite String.eqb_refl, Hfind. reflexivity.
  - intros j Hj. rewrite findUnique_updateWhereId by reflexivity.
    apply String.eqb_neq in Hj. now rewrite Hj.
  - apply length_map.
Qed.

Lemma update_reads_back_witness :
  putAppointment "apt-10" resendOwnTime (worldOf [tenOClock]) =
    (Put200 (applyUpdate resendOwnTime tenOClock),
     snd (putAppointment "apt-10" resendOwnTime (worldOf [tenOClock]))) /\
  id (applyUpdate resendOwnTime tenOClock) = "apt-10" /\
  findUnique "apt-10"
    (appointments (snd (putAppointment "apt-10" resendOwnTime (worldOf [tenOClock])))) =
    Some (applyUpdate resendOwnTime tenOClock) /\
  (forall j, j <> "apt-10" ->
     findUnique j
       (appointments (snd (putAppointment "apt-10" resendOwnTime (worldOf [tenOClock])))) =
     findUnique j (appointments (worldOf [tenOClock]))) /\
  List.length
    (appointments (snd (putAppointment "apt-10" resendOwnTime (worldOf [tenOClock])))) =
  List.length (appointments (worldOf [tenOClock])).
Proof.
  split; [reflexivity |].
  exact (update_reads_back "apt-10" resendOwnTime (worldOf [tenOClock]) _ _ eq_refl).
Defined.

(** ** Rescheduling *)

Lemma NoDup_map_id_inj (l : list Appointment) (a b : Appointment) :
  List.NoDup (map id l) -> In a l -> In b l -> id a = id b -> a = b.
Proof.
  induction l as [| x l IH]; [intros _ [] |].
  cbn [map]. intros Hnd Ha Hb E. apply NoDup_cons_iff in Hnd as [Hx Hnd].
  destruct Ha as [<- | Ha], Hb as [<- | Hb]; auto.
  - exfalso. apply Hx. rewrite E. now apply in_map.
  - exfalso. apply Hx. rewrite <- E. now apply in_map.
Qed.

Lemma passed_update_check_no_overlap (i p : string) (t : Z) (d : string)
  (l : list Appointment) :
  validDuration d = true -> storedDurationsValid l ->
  existsb (requestConflict t d) (windowedCandidatesExcept i p t l) = false ->
  forall b, In b l -> id b <> i -> providerId b = p -> status b <> CANCELLED ->
            ~ overlapsRequest t d b.
Proof.
  intros Hd Hl He b Hb Hne Hp Hs Ho.
  rewrite existsb_false_In in He.
  assert (Hw : t - DAY <= date b <= t + DAY)
    by (apply (overlapsRequest_inWindow t d b); auto).
  assert (Hin : In b (windowedCandidatesExcept i p t l)).
  { apply windowedCandidatesExcept_In. repeat split; auto.
    unfold inWindow. apply andb_true_iff. rewrite !Z.leb_le. lia. }
  specialize (He b Hin). unfold requestConflict in He.
  rewrite conflictsWith_overlapsRequestb in He by auto.
  apply overlapb_spec in Ho. unfold overlapsRequestb in He. congruence.
Qed.

(** X17.  Rescheduling, served without interleaving, keeps the provider's
    calendar free of overlaps.  [putAppointment] serves the request in one
    step: no other request is served between its lookup, its conflict
    query and its update.  Served so, on a well formed table in which no
    two live appointments of one provider overlap, an update request that
    carries a date or a duration leaves, whatever its answer, a table with
    the same property. *)
Theorem reschedule_keeps_pairwiseFree (i : string) (value : UpdateBody)
  (w w' : World) (r : PutResult) :
  tableOk (appointments w) ->
  pairwiseFree (appointments w) ->
  u_date value <> None \/ u_duration value <> None ->
  putAppointment i value w = (r, w') ->
  pairwiseFree (appointments w').
Proof.
  intros [Hnd Hl] Hfree Hsup. unfold putAppointment.
  destruct (updateAppointmentSchema value) eqn:Hv; cbn [negb];
    [| now intros [= _ <-]].
  destruct (findUnique i (appointments w)) as [ex |] eqn:Hfind;
    [| now intros [= _ <-]].
  destruct (updateHasConflict i value ex (appointments w)) eqn:Hc;
    [now intros [= _ <-] |].
  intros [= _ <-]. cbn [emit createAuditLog setAppointments appointments].
  destruct (findUnique_Some _ _ _ Hfind) as [Hexin Hexid].
  set (t := default (date ex) (u_date value)).
  set (d := default (duration ex) (u_duration value)).
  set (p := default (providerId ex) (u_providerId value)).
  assert (Hd : validDuration d = true).
  { unfold d. unfold updateAppointmentSchema in Hv. rewrite !andb_true_iff in Hv.
    destruct Hv as [_ Hdur].
    destruct (u_duration value); cbn [optValid default from_option Datatypes.id] in *;
      auto. }
  assert (Hcheck : existsb (requestConflict t d)
                     (windowedCandidatesExcept i p t (appointments w)) = false).
  { unfold updateHasConflict in Hc.
    destruct (isSome (u_date value) || isSome (u_duration value)) eqn:Hs; [exact Hc |].
    exfalso. destruct (u_date value), (u_duration value); cbn in Hs;
      try discriminate. destruct Hsup; congruence. }
  pose proof (passed_update_check_no_overlap i p t d _ Hd Hl Hcheck) as Hclear.
  assert (Hmoved : forall b, In b (appointments w) -> id b <> i ->
            providerId b = p -> status b <> CANCELLED ->
            ~ appointmentsOverlap (applyUpdate value ex) b).
  { intros b Hb Hne Hp Hs Ho. apply (Hclear b Hb Hne Hp Hs). exact Ho. }
  intros a' b' Ha' Hb' Hne Hp Hsa Hsb.
  unfold updateWhereId in Ha', Hb'.
  apply in_map_iff in Ha' as (a & <- & Ha). apply in_map_iff in Hb' as (b & <- & Hb).
  destruct (String.eqb (id a) i) eqn:Eai, (String.eqb (id b) i) eqn:Ebi.
  - exfalso. apply Hne. apply String.eqb_eq in Eai, Ebi.
    cbn [applyUpdate id]. congruence.
  - apply String.eqb_eq in Eai. apply String.eqb_neq in Ebi.
    assert (a = ex) as -> by (apply (NoDup_map_id_inj _ _ _ Hnd Ha Hexin); congruence).
    apply Hmoved; auto.
  - apply String.eqb_neq in Eai. apply String.eqb_eq in Ebi.
    assert (b = ex) as -> by (apply (NoDup_map_id_inj _ _ _ Hnd Hb Hexin); congruence).
    intros Ho. apply (Hmoved a Ha Eai); [now symmetry | assumption |].
    unfold appointmentsOverlap in *. now apply overlap_sym.
  - now apply Hfree.
Qed.

(** The 10:00 appointment is moved to 14:00, where provider X is free:
    the update is written. *)
Lemma reschedule_keeps_pairwiseFree_witness :
  tableOk (appointments tenThenEleven) /\
  pairwiseFree (appointments tenThenEleven) /\
  (u_date moveToTwoPm <> None \/ u_duration moveToTwoPm <> None) /\
  fst (putAppointment "apt-10" moveToTwoPm tenThenEleven) =
    Put200 (sampleApt "apt-10" "prov-X" "loc-1" (clock 14 0) "30 minutes" CONFIRMED) /\
  appointments (snd (putAppointment "apt-10" moveToTwoPm tenThenEleven)) =
    [sampleApt "apt-10" "prov-X" "loc-1" (clock 14 0) "30 minutes" CONFIRMED;
     createdFrom "apt-11" elevenOClock] /\
  pairwiseFree (appointments (snd (putAppointment "apt-10" moveToTwoPm tenThenEleven))).
Proof.
  assert (Hok : tableOk (appointments tenThenEleven)).
  { split.
    - cbn. repeat constructor; cbn; intuition discriminate.
    - intros a [<- | [<- | []]]; reflexivity. }
  assert (Hfree : pairwiseFree (appointments tenThenEleven)).
  { intros a b [<- | [<- | []]] [<- | [<- | []]] Hne _ _ _ [H1 H2];
      try congruence; vm_compute in H1, H2; congruence. }
  assert (Hsup : u_date moveToTwoPm <> None \/ u_duration moveToTwoPm <> None)
    by (left; discriminate).
  split; [exact Hok | split; [exact Hfree | split; [exact Hsup |]]].
  split; [reflexivity | split; [reflexivity |]].
  exact (reschedule_keeps_pairwiseFree "apt-10" moveToTwoPm tenThenEleven _ _
           Hok Hfree Hsup eq_refl).
Defined.

(** ** Bounds of the capacity report *)

Lemma filter_length_le {A} (f : A -> bool) (l : list A) :
  (List.length (List.filter f l) <= List.length l)%nat.
Proof.
  induction l as [| a l IH]; cbn [List.filter List.length]; [lia |].
  destruct (f a); cbn [List.length]; lia.
Qed.

(** X18.  In the capacity report of an existing location the buckets are
    the hours 8 to 18 in order; in each of them the occupied count lies
    between zero and the total number of appointments reported, the
    available count is never negative, and the bucket is flagged
    available exactly when its available count is positive. *)
Theorem location_buckets_bounds (tz : Z) (i : string) (selectedDate : Z) (w : World)
  (total : Z) (buckets : list HourBucket) (full : bool) :
  getLocationAvailability tz i (Some selectedDate) w = LocAvail200 total buckets full ->
  map hour buckets = seqZ 8 11 /\
  forall b, In b buckets ->
    0 <= currentAppointments b <= total /\
    0 <= availableSlots b /\
    (isAvailable b = true <-> 0 < availableSlots b).
Proof.
  unfold getLocationAvailability.
  destruct (find (fun l => String.eqb (loc_id l) i) (locations w)) as [loc |];
    [| discriminate].
  intros Hres.
  set (rows := orderByDateAsc (List.filter (locationWhere tz i selectedDate)
                                 (appointments w))) in *.
  assert (Hb : buckets = map (bucketOf (capacity loc) (hourlyCountOf tz rows))
                           (seqZ 8 11)) by congruence.
  assert (Ht : total = Z.of_nat (List.length rows)) by congruence.
  subst buckets total. clear Hres. split.
  - rewrite map_map. cbn [bucketOf hour]. apply map_id.
  - intros b Hb. apply in_map_iff in Hb as (h & <- & _).
    unfold bucketOf. cbn [currentAppointments availableSlots isAvailable].
    rewrite hourlyCountOf_lookup, Z.ltb_lt.
    pose proof (filter_length_le (coversb tz h) rows).
    lia.
Qed.

Lemma location_buckets_bounds_witness :
  getLocationAvailability 0 "loc-1" (Some monday) crowdedWorld =
    LocAvail200 3
      (map (expectedBucket 0 "loc-1" monday 2 crowdedTwoPm) (seqZ 8 11)) false /\
  map hour (map (expectedBucket 0 "loc-1" monday 2 crowdedTwoPm) (seqZ 8 11)) =
    seqZ 8 11 /\
  forall b, In b (map (expectedBucket 0 "loc-1" monday 2 crowdedTwoPm) (seqZ 8 11)) ->
    0 <= currentAppointments b <= 3 /\
    0 <= availableSlots b /\
    (isAvailable b = true <-> 0 < availableSlots b).
Proof.
  split; [reflexivity |].
  exact (location_buckets_bounds 0 "loc-1" monday crowdedWorld 3 _ false eq_refl).
Defined.

(** ** Reading a duration *)

Lemma firstToken_cut (n rest : string) :
  noSpace n = true -> firstToken (n ++ String " "%char rest) = n.
Proof.
  induction n as [| c n IH]; cbn [noSpace].
  - intros _. reflexivity.
  - rewrite andb_true_iff, negb_true_iff. intros [Hc Hn].
    change (firstToken (String c (n ++ String " "%char rest)) = String c n).
    cbn [firstToken]. rewrite Hc, (IH Hn). reflexivity.
Qed.

(** X19.  Only the text before the first space of a duration is read: for
    a first word [n] with no space in it, whatever follows the space, a
    unit or anything else, the minutes are those of [n] alone. *)
Theorem duration_unit_is_ignored (n rest : string) :
  noSpace n = true ->
  durationMinutesOf (n ++ String " "%char rest) = parseInt n.
Proof.
  intros Hn. unfold durationMinutesOf. now rewrite firstToken_cut.
Qed.

Lemma duration_unit_is_ignored_witness :
  noSpace "2" = true /\
  durationMinutesOf "2 hours" = parseInt "2" /\
  durationMinutesOf "2 hours" = Some 2.
Proof.
  split; [reflexivity |]. split; [| reflexivity].
  exact (duration_unit_is_ignored "2" "hours" eq_refl).
Defined.

(** ** The schedule of a location *)

Lemma afterDays_succ (c : Calendar) (k : nat) :
  forall d, afterDays c (S k) d = nextDay c (afterDays c k d).
Proof.
  induction k as [| k IH]; intros d; [reflexivity |].
  change (afterDays c (S (S k)) d) with (afterDays c (S k) (nextDay c d)).
  rewrite IH. reflexivity.
Qed.


Lemma afterDays_calendarDay (c : Calendar) (k : nat) (d : Z) :
  calendarDay c (afterDays c k d) = calendarDay c d + Z.of_nat k.
Proof.
  induction k as [| k IH]; [cbn [afterDays]; lia |].
  rewrite afterDays_succ, nextDay_calendarDay, IH. lia.
Qed.

Lemma afterDays_le (c : Calendar) (d : Z) (k k' : nat) :
  (k <= k')%nat -> afterDays c k d <= afterDays c k' d.
Proof.
  induction 1 as [| k' _ IH]; [lia |].
  rewrite afterDays_succ. pose proof (nextDay_later c (afterDays c k' d)). lia.
Qed.

(** With enough fuel the loop returns: it makes [n] passes, one entry for
    each of the loop dates that are not after the end. *)
Lemma scheduleLoop_runs (c : Calendar) (cap : Z) (rows : list Appointment) (e : Z) :
  forall (fuel : nat) (d : Z) (acc : list DaySchedule),
    (0 < fuel)%nat ->
    (d <= e -> (e - d) / 82800000 + 1 < Z.of_nat fuel) ->
    exists n,
      scheduleLoop fuel c cap rows e d acc =
        Some (acc ++ map (fun k => dayEntry c cap rows (afterDays c k d)) (seq 0 n))%list /\
      (forall k, (k < n)%nat -> afterDays c k d <= e) /\
      e < afterDays c n d.
Proof.
  induction fuel as [| fuel IH]; intros d acc Hpos Hfuel; [lia |].
  cbn [scheduleLoop]. destruct (Z.leb_spec d e) as [Hle | Hgt].
  - specialize (Hfuel Hle).
    assert (Hq : 0 <= (e - d) / 82800000) by (apply Z.div_pos; lia).
    pose proof (nextDay_later c d) as Hstep.
    destruct (IH (nextDay c d) (acc ++ [dayEntry c cap rows d])%list) as (n & Hrun & Hin & Hout).
    + lia.
    + intros Hle'.
      assert ((e - nextDay c d) / 82800000 <= (e - d + (-1) * 82800000) / 82800000)
        by (apply Z.div_le_mono; lia).
      rewrite Z.div_add in H by lia. lia.
    + exists (S n). split; [| split].
      * rewrite Hrun, <- app_assoc. cbn [seq map app afterDays].
        rewrite <- seq_shift, map_map. reflexivity.
      * intros [| k] Hk; cbn [afterDays]; [exact Hle | apply Hin; lia].
      * exact Hout.
  - exists 0%nat. cbn [seq map afterDays]. rewrite app_nil_r.
    split; [reflexivity | split; [intros k Hk; lia | exact Hgt]].
Qed.

(** The route's fuel is enough. *)
Lemma getLocationSchedule_runs (c : Calendar) (i : string) (start e : Z)
  (location : Location) (w : World) :
  find (fun l => String.eqb (loc_id l) i) (locations w) = Some location ->
  exists n,
    getLocationSchedule c i (Some start) (Some e) w =
      Some (LocSchedule200 location
              (map (fun k =>
                      dayEntry c (capacity location)
                        (orderByDateAsc
                           (List.filter (scheduleWhere i start e) (appointments w)))
                        (afterDays c k start))
                 (seq 0 n))) /\
    (forall k, (k < n)%nat -> afterDays c k start <= e) /\
    e < afterDays c n start.
Proof.
  intros Hfind. unfold getLocationSchedule. rewrite Hfind.
  destruct (scheduleLoop_runs c (capacity location)
              (orderByDateAsc (List.filter (scheduleWhere i start e) (appointments w)))
              e (Z.to_nat ((e - start) / 82800000) + 2) start [])
    as (n & Hrun & Hin & Hout).
  - lia.
  - intros Hle. assert (0 <= (e - start) / 82800000) by (apply Z.div_pos; lia). lia.
  - exists n. rewrite Hrun. cbn [app]. auto.
Qed.



Lemma listedCount_days (c : Calendar) (cap : Z) (rows : list Appointment) (start : Z) :
  forall n s,
    listedCount
      (map (fun k => dayEntry c cap rows (afterDays c k start)) (seq s n)) =
    Z.of_nat (List.length
      (List.filter
         (fun a => (calendarDay c start + Z.of_nat s <=? calendarDay c (date a)) &&
                   (calendarDay c (date a) <?
                      calendarDay c start + Z.of_nat s + Z.of_nat n))
         rows)).
Proof.
  induction n as [| n IH]; intros s.
  - cbn [seq map listedCount fold_right].
    rewrite filter_none; [reflexivity |].
    intros a _. apply andb_false_iff.
    destruct (Z.leb_spec (calendarDay c start + Z.of_nat s) (calendarDay c (date a)));
      [right; apply Z.ltb_ge; lia | now left].
  - cbn [seq map listedCount fold_right]. fold (listedCount
      (map (fun k => dayEntry c cap rows (afterDays c k start)) (seq (S s) n))).
    rewrite IH. cbn [dayEntry appointmentCount].
    rewrite afterDays_calendarDay, <- Nat2Z.inj_add. f_equal.
    rewrite <- length_filter_disjoint.
    + f_equal. apply filter_ext_in_list. intros a _.
      set (x := calendarDay c (date a)). set (lo := calendarDay c start + Z.of_nat s).
      destruct (Z.eqb_spec x lo), (Z.leb_spec (calendarDay c start + Z.of_nat (S s)) x),
        (Z.ltb_spec x (calendarDay c start + Z.of_nat (S s) + Z.of_nat n)),
        (Z.leb_spec lo x), (Z.ltb_spec x (lo + Z.of_nat (S n)));
        cbn [andb orb]; subst lo; lia.
    + intros a _ E. apply Z.eqb_eq in E. apply andb_false_iff. left.
      apply Z.leb_gt. lia.
Qed.

(** X22.  When the end is not before the start, and the loop date that
    falls on the calendar day of the end is not after the end (where the
    clocks do not change in between: the end's time of day is not earlier
    than the start's), the days of the schedule share out the appointments
    of the range: the appointment counts of the entries add up to the
    number of appointments of the location in the range that are not
    cancelled. *)
Theorem schedule_counts_add_up (c : Calendar) (i : string) (start e : Z)
  (location : Location) (w : World) :
  find (fun l => String.eqb (loc_id l) i) (locations w) = Some location ->
  start <= e ->
  onDayOf c start e <= e ->
  exists schedule,
    getLocationSchedule c i (Some start) (Some e) w =
      Some (LocSchedule200 location schedule) /\
    listedCount schedule =
    Z.of_nat (List.length (List.filter (scheduleWhere i start e) (appointments w))).
Proof.
  intros Hfind Hle Hday.
  destruct (getLocationSchedule_runs c i start e location w Hfind)
    as (n & Hrun & Hin & Hout).
  eexists. split; [exact Hrun |].
  rewrite listedCount_days.
  set (rows := orderByDateAsc (List.filter (scheduleWhere i start e) (appointments w))).
  rewrite filter_all_true; [unfold rows; now rewrite orderByDateAsc_length |].
  intros a Ha. unfold rows in Ha. apply (proj1 (orderByDateAsc_In _ _)) in Ha.
  apply filter_In in Ha as [_ Hw]. unfold scheduleWhere in Hw.
  rewrite !andb_true_iff, !Z.leb_le in Hw. destruct Hw as [[_ [Hs He]] _].
  pose proof (calendarDay_mono c _ _ Hs). pose proof (calendarDay_mono c _ _ He).
  pose proof (calendarDay_mono c _ _ Hle).
  set (K := Z.to_nat (calendarDay c e - calendarDay c start)).
  assert (HK : (K < n)%nat).
  { destruct (Nat.lt_ge_cases K n) as [Hlt | Hge]; [exact Hlt |].
    pose proof (afterDays_le c start n K Hge). unfold onDayOf in Hday. fold K in Hday. lia. }
  apply andb_true_iff. rewrite Z.leb_le, Z.ltb_lt. unfold K in HK. lia.
Qed.

Lemma schedule_counts_add_up_witness :
  find (fun l => String.eqb (loc_id l) "loc-1") (locations crowdedWorld) =
    Some (mkLocation "loc-1" "Main" 2) /\
  monday <= monday + 2 * DAYMS /\
  onDayOf (fixedOffset 0) monday (monday + 2 * DAYMS) <= monday + 2 * DAYMS /\
  exists schedule,
    getLocationSchedule (fixedOffset 0) "loc-1" (Some monday) (Some (monday + 2 * DAYMS))
      crowdedWorld =
      Some (LocSchedule200 (mkLocation "loc-1" "Main" 2) schedule) /\
    listedCount schedule =
    Z.of_nat (List.length
      (List.filter (scheduleWhere "loc-1" monday (monday + 2 * DAYMS))
         (appointments crowdedWorld))).
Proof.
  assert (H1 : monday <= monday + 2 * DAYMS) by (vm_compute; discriminate).
  assert (H2 : onDayOf (fixedOffset 0) monday (monday + 2 * DAYMS) <= monday + 2 * DAYMS)
    by (vm_compute; discriminate).
  split; [reflexivity | split; [exact H1 | split; [exact H2 |]]].
  exact (schedule_counts_add_up (fixedOffset 0) "loc-1" monday (monday + 2 * DAYMS)
           (mkLocation "loc-1" "Main" 2) crowdedWorld eq_refl H1 H2).
Defined.

Lemma dayEntry_In (c : Calendar) (cap : Z) (rows : list Appointment) (d : Z)
  (a : Appointment) :
  In a (dayAppointments (dayEntry c cap rows d)) <->
  In a rows /\ calendarDay c (date a) = calendarDay c d.
Proof.
  cbn [dayEntry dayAppointments]. rewrite filter_In, Z.eqb_eq. tauto.
Qed.

(** X23.  When the loop date that falls on the calendar day of the end is
    after the end (where the clocks do not change in between: the end's
    time of day is earlier than the start's), the schedule stops one day
    short: an appointment that falls on the calendar day of the end is
    listed in no entry. *)
Theorem schedule_last_day_dropped (c : Calendar) (i : string) (start e : Z)
  (location : Location) (w : World) (a : Appointment) :
  find (fun l => String.eqb (loc_id l) i) (locations w) = Some location ->
  start <= e ->
  e < onDayOf c start e ->
  calendarDay c (date a) = calendarDay c e ->
  exists schedule,
    getLocationSchedule c i (Some start) (Some e) w =
      Some (LocSchedule200 location schedule) /\
    forall entry, In entry schedule -> ~ In a (dayAppointments entry).
Proof.
  intros Hfind Hle Hday Ha.
  destruct (getLocationSchedule_runs c i start e location w Hfind)
    as (n & Hrun & Hin & Hout).
  eexists. split; [exact Hrun |].
  intros entry Hentry Hmem. apply in_map_iff in Hentry as (k & <- & Hk).
  apply dayEntry_In in Hmem as [_ Hsame]. apply in_seq in Hk.
  rewrite afterDays_calendarDay in Hsame.
  pose proof (calendarDay_mono c _ _ Hle).
  assert (Hkk : k = Z.to_nat (calendarDay c e - calendarDay c start)) by lia.
  specialize (Hin k ltac:(lia)). unfold onDayOf in Hday. rewrite <- Hkk in Hday. lia.
Qed.

Lemma schedule_last_day_dropped_witness :
  find (fun l => String.eqb (loc_id l) "loc-1") (locations crowdedWorld) =
    Some (mkLocation "loc-1" "Main" 2) /\
  clock (-4) 0 <= clock 15 0 /\
  clock 15 0 < onDayOf (fixedOffset 0) (clock (-4) 0) (clock 15 0) /\
  calendarDay (fixedOffset 0)
    (date (sampleApt "c1" "prov-X" "loc-1" (clock 14 0) "30 minutes" CONFIRMED)) =
    calendarDay (fixedOffset 0) (clock 15 0) /\
  exists schedule,
    getLocationSchedule (fixedOffset 0) "loc-1" (Some (clock (-4) 0)) (Some (clock 15 0))
      crowdedWorld =
      Some (LocSchedule200 (mkLocation "loc-1" "Main" 2) schedule) /\
    forall entry, In entry schedule ->
      ~ In (sampleApt "c1" "prov-X" "loc-1" (clock 14 0) "30 minutes" CONFIRMED)
          (dayAppointments entry).
Proof.
  assert (H1 : clock (-4) 0 <= clock 15 0) by (vm_compute; discriminate).
  assert (H2 : clock 15 0 < onDayOf (fixedOffset 0) (clock (-4) 0) (clock 15 0))
    by (vm_compute; reflexivity).
  split; [reflexivity | split; [exact H1 | split; [exact H2 | split; [reflexivity |]]]].
  exact (schedule_last_day_dropped (fixedOffset 0) "loc-1" (clock (-4) 0) (clock 15 0)
           (mkLocation "loc-1" "Main" 2) crowdedWorld
           (sampleApt "c1" "prov-X" "loc-1" (clock 14 0) "30 minutes" CONFIRMED)
           eq_refl H1 H2 eq_refl).
Defined.

(** ** The calendar view *)

Lemma groupByDate_lookup (acc : gmap Z (list Appointment)) (a : Appointment) (k : Z) :
  default [] (groupByDate acc a !! k) =
  (default [] (acc !! k) ++ (if dateKey (date a) =? k then [a] else []))%list.
Proof.
  unfold groupByDate. destruct (Z.eqb_spec (dateKey (date a)) k) as [-> | Hne].
  - rewrite lookup_insert_eq. reflexivity.
  - rewrite lookup_insert_ne by assumption. now rewrite app_nil_r.
Qed.

Lemma groupByDate_None (acc : gmap Z (list Appointment)) (a : Appointment) (k : Z) :
  groupByDate acc a !! k = None <-> acc !! k = None /\ dateKey (date a) <> k.
Proof.
  unfold groupByDate. destruct (Z.eq_dec (dateKey (date a)) k) as [-> | Hne].
  - rewrite lookup_insert_eq. split; [discriminate | tauto].
  - rewrite lookup_insert_ne by assumption. tauto.
Qed.

Lemma fold_groupByDate_lookup (l : list Appointment) (k : Z) :
  forall acc : gmap Z (list Appointment),
    default [] (fold_left groupByDate l acc !! k) =
    (default [] (acc !! k) ++ List.filter (fun a => dateKey (date a) =? k) l)%list /\
    (fold_left groupByDate l acc !! k = None <->
     acc !! k = None /\ List.filter (fun a => dateKey (date a) =? k) l = []).
Proof.
  induction l as [| a l IH]; intros acc; cbn [fold_left List.filter].
  - rewrite app_nil_r. tauto.
  - destruct (IH (groupByDate acc a)) as [Hval Hnone].
    rewrite Hval, Hnone, groupByDate_lookup, groupByDate_None. clear IH Hval Hnone.
    destruct (Z.eqb_spec (dateKey (date a)) k) as [E | E].
    + rewrite <- app_assoc. split; [reflexivity |]. split; [tauto |].
      intros [_ H]. discriminate H.
    + rewrite app_nil_r. tauto.
Qed.

(** X24.  The calendar view files every appointment that matches the
    query under the UTC day of its start and nowhere else: a day has a
    group exactly when some matching appointment starts on it, and its
    group is the list of those appointments in order of their start. *)
Theorem calendar_groups (q : CalendarQuery) (w : World) (k : Z) :
  default [] (getCalendar q w !! k) =
    List.filter (fun a => dateKey (date a) =? k)
      (orderByDateAsc (List.filter (calendarWhere q) (appointments w))) /\
  (getCalendar q w !! k = None <->
   forall a, In a (appointments w) -> calendarWhere q a = true ->
             dateKey (date a) <> k).
Proof.
  unfold getCalendar.
  set (rows := orderByDateAsc (List.filter (calendarWhere q) (appointments w))).
  destruct (fold_groupByDate_lookup rows k ∅) as [Hval Hnone].
  rewrite lookup_empty in Hval, Hnone. split; [exact Hval |].
  rewrite Hnone. clear Hval Hnone. split.
  - intros [_ Hnil] a Ha Hq E.
    assert (Hin : In a (List.filter (fun a => dateKey (date a) =? k) rows)).
    { apply filter_In. split; [| now apply Z.eqb_eq].
      apply orderByDateAsc_In. apply filter_In. auto. }
    rewrite Hnil in Hin. destruct Hin.
  - intros Hall. split; [reflexivity |]. apply filter_none.
    intros a Ha. apply (proj1 (orderByDateAsc_In _ _)) in Ha.
    apply filter_In in Ha as [Ha Hq]. apply Z.eqb_neq. now apply Hall.
Qed.

Lemma fold_addDuration_valid (l : list Appointment) :
  (forall a, In a l -> validDuration (duration a) = true) ->
  forall acc, exists s,
    fold_left addDuration l (Some acc) = Some s /\
    acc + 15 * Z.of_nat (List.length l) <= s <= acc + 90 * Z.of_nat (List.length l).
Proof.
  induction l as [| a l IH]; intros Hv acc; cbn [fold_left List.length].
  - exists acc. split; [reflexivity | lia].
  - destruct (validDuration_minutes _ (Hv a (or_introl eq_refl))) as (m & Hm & Hmb).
    unfold addDuration at 2. rewrite Hm.
    destruct (IH (fun x Hx => Hv x (or_intror Hx)) (acc + m)) as (s & Hs & Hb).
    exists s. split; [exact Hs | lia].
Qed.

(** X25.  On a table whose stored durations passed validation, every day
    of a location's schedule carries a total of minutes that is a number,
    at least 15 and at most 90 minutes for each appointment of the day. *)
Theorem schedule_total_minutes (c : Calendar) (i : string) (start e : Z)
  (location : Location) (w : World) :
  storedDurationsValid (appointments w) ->
  find (fun l => String.eqb (loc_id l) i) (locations w) = Some location ->
  exists schedule,
    getLocationSchedule c i (Some start) (Some e) w =
      Some (LocSchedule200 location schedule) /\
    forall entry, In entry schedule ->
      exists total,
        totalDurationMinutes entry = Some total /\
        15 * appointmentCount entry <= total <= 90 * appointmentCount entry.
Proof.
  intros Hvalid Hfind.
  destruct (getLocationSchedule_runs c i start e location w Hfind)
    as (n & Hrun & _ & _).
  eexists. split; [exact Hrun |].
  intros entry Hentry. apply in_map_iff in Hentry as (k & <- & _).
  cbn [dayEntry totalDurationMinutes appointmentCount].
  match goal with
  | |- context [fold_left addDuration ?rows _] =>
      destruct (fold_addDuration_valid rows) with (acc := 0) as (s & Hs & Hb)
  end.
  - intros a Ha. apply filter_In in Ha as [Ha _].
    apply (proj1 (orderByDateAsc_In _ _)) in Ha. apply filter_In in Ha as [Ha _].
    now apply Hvalid.
  - exists s. split; [exact Hs | lia].
Qed.

Lemma schedule_total_minutes_witness :
  storedDurationsValid (appointments crowdedWorld) /\
  find (fun l => String.eqb (loc_id l) "loc-1") (locations crowdedWorld) =
    Some (mkLocation "loc-1" "Main" 2) /\
  exists schedule,
    getLocationSchedule (fixedOffset 0) "loc-1" (Some monday) (Some (monday + 2 * DAYMS)) crowdedWorld =
      Some (LocSchedule200 (mkLocation "loc-1" "Main" 2) schedule) /\
    forall entry, In entry schedule ->
      exists total,
        totalDurationMinutes entry = Some total /\
        15 * appointmentCount entry <= total <= 90 * appointmentCount entry.
Proof.
  assert (Hv : storedDurationsValid (appointments crowdedWorld)).
  { intros a [<- | [<- | [<- | []]]]; reflexivity. }
  split; [exact Hv | split; [reflexivity |]].
  exact (schedule_total_minutes (fixedOffset 0) "loc-1" monday (monday + 2 * DAYMS)
           (mkLocation "loc-1" "Main" 2) crowdedWorld Hv eq_refl).
Defined.
